(** * migrate-safe: supervised Prisma migration (src/migrate-safe.ts)

    A shallow embedding of the script [migrate-safe.ts]: the string
    operations it relies on ([split], [join], [includes], [sort],
    [reverse]), the clean-up loop over [linesToRemove], and [main] as a
    computation over a file system, child processes and the console. *)

From Stdlib Require Import Ascii String DecimalString.
From stdpp Require Import gmap strings list sorting.

(** ** Strings

    A JavaScript string is modelled as a [string]: a sequence of code
    units, here of type [ascii].  Only equality and the order of code
    units are used by the script. *)

Module Js.

Definition LF : ascii := "010"%char.
Definition DQUOTE : ascii := "034"%char.

Definition chr (c : ascii) : string := String c EmptyString.

(** [line.includes(s)]: [s] occurs in [line] at some position. *)
Fixpoint includes (line s : string) : bool :=
  String.prefix s line ||
  match line with
  | EmptyString => false
  | String _ rest => includes rest s
  end.

(** [s.split(sep)] for a separator of one code unit: the pieces between
    the separators; never the empty array. *)
Fixpoint split (sep : ascii) (s : string) : list string :=
  match s with
  | EmptyString => [EmptyString]
  | String c rest =>
      if Ascii.eqb c sep then EmptyString :: split sep rest
      else match split sep rest with
           | piece :: pieces => String c piece :: pieces
           | [] => [chr c]
           end
  end.

(** [a.join(sep)]: the empty array gives the empty string. *)
Definition join (sep : string) (a : list string) : string :=
  String.concat sep a.

(** [a.filter(p)], and [a.length]. *)
Definition filter (p : string → bool) (a : list string) : list string :=
  List.filter p a.

(** The default comparison of [Array.prototype.sort]: strings compared
    code unit by code unit. *)
Definition le (s t : string) : Prop := String.leb s t = true.

Global Instance le_dec s t : Decision (le s t).
Proof. unfold le. apply _. Defined.

(** [a.sort()] and [a.reverse()]. *)
Definition sort (a : list string) : list string := merge_sort le a.
Definition reverse (a : list string) : list string := reverse a.

(** [!s] for a value that is [undefined] or a string. *)
Definition falsy (v : option string) : bool :=
  match v with
  | None => true
  | Some s => String.eqb s EmptyString
  end.

(** A value that is [undefined] or a string, inside a template literal. *)
Definition str (v : option string) : string :=
  match v with
  | None => "undefined"
  | Some s => s
  end.

(** Decimal rendering of a count inside a template literal. *)
Definition of_nat (n : nat) : string :=
  NilEmpty.string_of_uint (Nat.to_uint n).

End Js.

(** ** Configuration *)

Definition linesToRemove : list string :=
  [ "ALTER TABLE `PostCoordinates` DROP FOREIGN KEY `PostCoordinates_postId_fkey`;";
    "DROP INDEX `idx_postcoordinates_geo` ON `PostCoordinates`;" ].

(** ** Step 3, the clean-up loop

    The body of [linesToRemove.forEach], on the two variables it
    updates: [migrationContent] and [linesRemovedCount]. *)

Definition NL : string := Js.chr Js.LF.

Definition removeLine (lineToRemove : string) (st : string * nat) : string * nat :=
  let '(migrationContent, linesRemovedCount) := st in
  let lines := Js.split Js.LF migrationContent in
  let originalLength := length lines in
  let filteredLines :=
    Js.filter (λ line, negb (Js.includes line lineToRemove)) lines in
  if length filteredLines <? originalLength
  then (Js.join NL filteredLines,
        linesRemovedCount + (originalLength - length filteredLines))
  else (migrationContent, linesRemovedCount).

(** The whole loop, for a blacklist [blacklist], from the content read
    and a count of zero. *)
Definition sanitize (blacklist : list string) (content : string) : string * nat :=
  fold_left (λ st lineToRemove, removeLine lineToRemove st) blacklist (content, 0).

Definition lines_of (content : string) : list string := Js.split Js.LF content.

(** ** The host: file system, child processes, console *)

(** The part of the file system the script can observe: directories
    with the entries [readdirSync] lists, regular files with their text,
    and the paths that refuse a write. *)
Record FS := mkFS {
  dirs : gmap string (list string);
  files : gmap string string;
  locked : gset string;
}.

(** How a child process started by [execSync] ends. *)
Inductive ChildResult :=
  | Exited (status : N)
  | Signaled
  | SpawnFailed.

Definition child_ok (r : ChildResult) : bool :=
  match r with
  | Exited 0 => true
  | _ => false
  end.

(** What the script does to the outside, in order. *)
Inductive Event :=
  | ConsoleInfo (msg : string)
  | ConsoleLog (msg : string)
  | ConsoleError (msg : string)
  | ExecSync (command : string)
  | ReaddirSync (path : string)
  | ReadFileSync (path : string)
  | WriteFileSync (path data : string).

Inductive Error :=
  | ExecError (command : string) (r : ChildResult)
  | FsError (syscall path : string).

(** A computation stops early by [process.exit] or by an exception
    that is still propagating. *)
Inductive Halt :=
  | Exit (code : N)
  | Throw (e : Error).

Inductive Outcome (A : Type) :=
  | Returned (a : A)
  | Halted (h : Halt).
Arguments Returned {A} a.
Arguments Halted {A} h.

Record Run (A : Type) := mkRun {
  events : list Event;
  final : FS;
  outcome : Outcome A;
}.
Arguments mkRun {A} _ _ _.
Arguments events {A} _.
Arguments final {A} _.
Arguments outcome {A} _.

Definition M (A : Type) : Type := FS → Run A.

Definition ret {A} (a : A) : M A := λ fs, mkRun [] fs (Returned a).

Definition bind {A B} (m : M A) (k : A → M B) : M B := λ fs,
  let r := m fs in
  match outcome r with
  | Returned a =>
      let r' := k a (final r) in
      mkRun (events r ++ events r') (final r') (outcome r')
  | Halted h => mkRun (events r) (final r) (Halted h)
  end.

Notation "'do' x <- m ; k" := (bind m (λ x, k))
  (at level 60, m at next level, right associativity).
Notation "'do' m ; k" := (bind m (λ _, k))
  (at level 60, right associativity).

Definition emit (e : Event) : M unit := λ fs, mkRun [e] fs (Returned ()).
Definition halt {A} (h : Halt) : M A := λ fs, mkRun [] fs (Halted h).

(** [try { m } catch (error) { handler }]: [process.exit] is not an
    exception and passes through. *)
Definition try_catch {A} (m : M A) (handler : Error → M A) : M A := λ fs,
  let r := m fs in
  match outcome r with
  | Halted (Throw e) =>
      let r' := handler e (final r) in
      mkRun (events r ++ events r') (final r') (outcome r')
  | _ => r
  end.

Definition when (b : bool) (m : M unit) : M unit := if b then m else ret ().

Definition console_info (msg : string) : M unit := emit (ConsoleInfo msg).
Definition console_log (msg : string) : M unit := emit (ConsoleLog msg).
Definition console_error (msg : string) : M unit := emit (ConsoleError msg).
Definition process_exit {A} (code : N) : M A := halt (Exit code).

(** [fs.readdirSync(path)]: throws when [path] is no directory. *)
Definition readdirSync (path : string) : M (list string) := λ fs,
  match dirs fs !! path with
  | Some entries => mkRun [ReaddirSync path] fs (Returned entries)
  | None => mkRun [ReaddirSync path] fs (Halted (Throw (FsError "scandir" path)))
  end.

(** [fs.readFileSync(path, 'utf-8')]: throws when [path] is no file. *)
Definition readFileSync (path : string) : M string := λ fs,
  match files fs !! path with
  | Some text => mkRun [ReadFileSync path] fs (Returned text)
  | None => mkRun [ReadFileSync path] fs (Halted (Throw (FsError "open" path)))
  end.

(** [fs.writeFileSync(path, data)]: replaces the text of the file, or
    throws when the path refuses the write.  The script writes only the
    file it has just read, so no list of entries changes. *)
Definition writeFileSync (path data : string) : M unit := λ fs,
  if decide (path ∈ locked fs)
  then mkRun [WriteFileSync path data] fs (Halted (Throw (FsError "open" path)))
  else mkRun [WriteFileSync path data]
             (mkFS (dirs fs) (<[path := data]> (files fs)) (locked fs))
             (Returned ()).

(** ** Messages *)

Definition quoted (s : string) : string :=
  Js.chr Js.DQUOTE +:+ s +:+ Js.chr Js.DQUOTE.

Definition msg_usage : string :=
  "Error: Provide migration name. Usage: npm run migrate:safe -- "
  +:+ quoted "my-migration-name".
Definition msg_step1 : string := NL +:+ "[Step 1/4] Generating migration file...".
Definition msg_step2 : string := NL +:+ "[Step 2/4] Searching for migration file...".
Definition msg_step3 : string := NL +:+ "[Step 3/4] Cleaning up migration file...".
Definition msg_step4 : string := NL +:+ "[Step 4/4] Applying migrations...".
Definition msg_not_found : string := "Migration folder not found.".
Definition msg_found (migrationFilePath : string) : string :=
  "Found: " +:+ migrationFilePath.
Definition msg_removed (linesRemovedCount : nat) : string :=
  "Successfully removed " +:+ Js.of_nat linesRemovedCount
  +:+ " unwanted lines from the migration file.".
Definition msg_clean : string := "No lines to remove found. The file is clean.".
Definition msg_done : string := NL +:+ "ðŸŽ‰ Safe migration completed successfully!".
Definition msg_failed (command : string) : string :=
  "Command " +:+ quoted command +:+ " failed.".
Definition msg_run (command : string) : string := "> " +:+ command.

Definition cmd_generate (migrationName : string) : string :=
  "npx prisma migrate dev --name " +:+ quoted migrationName +:+ " --create-only".
Definition cmd_deploy : string := "npx prisma migrate deploy".

(** ** The script *)

Section Script.

(** [path.join] of Node, and the behaviour of the commands started:
    how the child ends and the file system it leaves. *)
Variable path_join : list string → string.
Variable spawn : string → FS → ChildResult * FS.

(** The configured blacklist; [linesToRemove] in the repository. *)
Variable blacklist : list string.

(** [execSync(command, { stdio: 'inherit' })]: throws unless the child
    exits with status zero. *)
Definition execSync (command : string) : M unit := λ fs,
  let r := spawn command fs in
  mkRun [ExecSync command] r.2
        (if child_ok r.1 then Returned () else Halted (Throw (ExecError command r.1))).

Definition runCommand (command : string) : M unit :=
  try_catch
    (do console_info (msg_run command);
     execSync command)
    (λ error,
       do console_error (msg_failed command);
       process_exit 1).

Definition migrationsDir (cwd : string) : string :=
  path_join [cwd; "prisma"; "schema"; "migrations"].

(** Step 2: the path of the script to clean. *)
Definition locate (cwd : string) : M string :=
  do console_info msg_step2;
  do entries <- readdirSync (migrationsDir cwd);
  let allMigrations := Js.reverse (Js.sort entries) in
  let latestMigrationDirName := allMigrations !! 1 in
  do when (Js.falsy latestMigrationDirName)
          (do console_error msg_not_found; process_exit 1);
  let migrationFilePath :=
    path_join [migrationsDir cwd; Js.str latestMigrationDirName; "migration.sql"] in
  do console_log (msg_found migrationFilePath);
  ret migrationFilePath.

(** Step 3: read, clean and save the script; returns the count. *)
Definition clean (migrationFilePath : string) : M nat :=
  do console_info msg_step3;
  do content <- readFileSync migrationFilePath;
  let migrationContent := (sanitize blacklist content).1 in
  let linesRemovedCount := (sanitize blacklist content).2 in
  do (if 0 <? linesRemovedCount
      then do writeFileSync migrationFilePath migrationContent;
           console_info (msg_removed linesRemovedCount)
      else console_info msg_clean);
  ret linesRemovedCount.

Definition main (argv : list string) (cwd : string) : M unit :=
  let migrationName := argv !! 2 in
  do when (Js.falsy migrationName)
          (do console_error msg_usage; process_exit 1);
  do console_info msg_step1;
  do runCommand (cmd_generate (Js.str migrationName));
  do migrationFilePath <- locate cwd;
  do linesRemovedCount <- clean migrationFilePath;
  do console_info msg_step4;
  do runCommand cmd_deploy;
  console_info msg_done.

(** The directory selected by Step 2 among the entries listed. *)
Definition selected (entries : list string) : option string :=
  Js.reverse (Js.sort entries) !! 1.

Definition scriptPath (cwd : string) (entries : list string) : string :=
  path_join [migrationsDir cwd; Js.str (selected entries); "migration.sql"].

(** Names for what remains of [main] after Step 3 and after Step 1,
    and for the run of the generator; not in the source. *)
Definition finish : M unit :=
  do console_info msg_step4;
  do runCommand cmd_deploy;
  console_info msg_done.

Definition after_generate (cwd : string) : M unit :=
  do migrationFilePath <- locate cwd;
  do linesRemovedCount <- clean migrationFilePath;
  finish.

Definition generated (argv : list string) (fs : FS) : ChildResult * FS :=
  spawn (cmd_generate (Js.str (argv !! 2))) fs.

End Script.

(** ** The loop, seen from outside *)

(** A pass of the loop for one entry, on the lines, and the loop from
    any content and count. *)
Definition without (entry : string) (lines : list string) : list string :=
  Js.filter (λ line, negb (Js.includes line entry)) lines.

Definition loop (blacklist : list string) (st : string * nat) : string * nat :=
  fold_left (λ st lineToRemove, removeLine lineToRemove st) blacklist st.

(** A string with the code unit [c] in it; the pieces of [split] have
    no separator in them. *)
Fixpoint has_code (c : ascii) (s : string) : bool :=
  match s with
  | EmptyString => false
  | String d rest => Ascii.eqb d c || has_code c rest
  end.

(** ** What the specification says about cleaning

    A line is kept when it contains no entry of the blacklist, and is
    unsafe when it contains one. *)

Definition clean_line (blacklist : list string) (line : string) : bool :=
  forallb (λ entry, negb (Js.includes line entry)) blacklist.

Definition unsafe_line (blacklist : list string) (line : string) : bool :=
  existsb (λ entry, Js.includes line entry) blacklist.

Definition retained (blacklist : list string) (lines : list string) : list string :=
  List.filter (clean_line blacklist) lines.

Definition removed_count (blacklist : list string) (lines : list string) : nat :=
  length (List.filter (unsafe_line blacklist) lines).

(** The result the specification gives for cleaning: the retained
    lines, and the number of unsafe input lines. *)
Definition sanitize_specified (blacklist : list string) (content : string) : string * nat :=
  (Js.join NL (retained blacklist (lines_of content)),
   removed_count blacklist (lines_of content)).

(** The single pass the loop is compared with: every line containing
    some entry is dropped at once, and the count is the number of lines
    less the number of retained lines. *)
Definition single_pass (blacklist : list string) (content : string) : string * nat :=
  let lines := lines_of content in
  let kept := retained blacklist lines in
  (Js.join NL kept, length lines - length kept).

(** ** What a run did *)

Definition prepend {A} (pre : list Event) (r : Run A) : Run A :=
  mkRun (pre ++ events r) (final r) (outcome r).

Definition writes (evs : list Event) : list (string * string) :=
  omap (λ e, match e with WriteFileSync path data => Some (path, data) | _ => None end) evs.

Definition commands (evs : list Event) : list string :=
  omap (λ e, match e with ExecSync command => Some command | _ => None end) evs.

Definition errors (evs : list Event) : list string :=
  omap (λ e, match e with ConsoleError msg => Some msg | _ => None end) evs.

(** The path a call into the file system is about. *)
Definition fs_call (e : Event) : option string :=
  match e with
  | ReaddirSync path | ReadFileSync path | WriteFileSync path _ => Some path
  | _ => None
  end.

Definition fs_calls (evs : list Event) : list string := omap fs_call evs.

(** The calls into the file system, each with its kind, in order. *)
Definition fs_events (evs : list Event) : list Event :=
  List.filter (λ e, match e with
                    | ReaddirSync _ | ReadFileSync _ | WriteFileSync _ _ => true
                    | _ => false
                    end) evs.

(** ** The process

    The file ends with the bare call [main();] of an async function.
    Node ends the process with status 0 once [main] has returned and
    with the code given to [process.exit]; when an exception leaves
    [main], the promise is rejected with nobody to handle it, and Node
    prints the error on the error stream and ends the process with
    status 1. *)

(** What the operator sees: what the script does, and the error that
    Node prints when it was not caught. *)
Inductive Output :=
  | Script (e : Event)
  | Uncaught (e : Error).

Record Ended := mkEnded {
  output : list Output;
  left : FS;
  status : N;
}.

Definition node_end (r : Run unit) : Ended :=
  match outcome r with
  | Returned _ => mkEnded (Script <$> events r) (final r) 0
  | Halted (Exit code) => mkEnded (Script <$> events r) (final r) code
  | Halted (Throw e) => mkEnded ((Script <$> events r) ++ [Uncaught e]) (final r) 1
  end.

Definition migrate_safe (path_join : list string → string)
    (spawn : string → FS → ChildResult * FS) (blacklist argv : list string)
    (cwd : string) (fs : FS) : Ended :=
  node_end (main path_join spawn blacklist argv cwd fs).

(** What is printed on the error stream, by the script or by Node, and
    the lines the script prints with [console.info]. *)
Definition reports (out : list Output) : list Output :=
  List.filter (λ o, match o with
                    | Script (ConsoleError _) | Uncaught _ => true
                    | _ => false
                    end) out.

Definition infos (out : list Output) : list string :=
  omap (λ o, match o with Script (ConsoleInfo msg) => Some msg | _ => None end) out.

(** ** Example inputs *)

Definition example_lines : list string :=
  [ "CREATE TABLE X (...);";
    "ALTER TABLE `PostCoordinates` DROP FOREIGN KEY `PostCoordinates_postId_fkey`;";
    "DROP INDEX `idx_postcoordinates_geo` ON `PostCoordinates`;";
    "CREATE INDEX y ON z;" ].

Definition example_script : string := Js.join NL example_lines.

(** [path.join] on segments that are already normal. *)
Definition posix_join (segments : list string) : string := Js.join "/" segments.

(** Commands that only exit with a given status. *)
Definition spawn_exit (status : N) (command : string) (fs : FS) : ChildResult * FS :=
  (Exited status, fs).

Definition app_argv : list string := ["node"; "migrate-safe.ts"; "add_user"].
Definition app_root : string := "/app/prisma/schema/migrations".
Definition app_entries : list string :=
  ["20240101_a"; "20240102_b"; "migration_lock.toml"].
Definition app_script : string := "/app/prisma/schema/migrations/20240102_b/migration.sql".

Definition fs_example : FS :=
  mkFS {[ app_root := app_entries ]} {[ app_script := example_script ]} ∅.

Definition fs_clean_script : FS :=
  mkFS {[ app_root := app_entries ]} {[ app_script := "CREATE TABLE X (...);" ]} ∅.

Definition fs_empty_root : FS := mkFS {[ app_root := [] ]} ∅ ∅.
Definition fs_no_root : FS := mkFS ∅ ∅ ∅.
Definition fs_no_script : FS := mkFS {[ app_root := app_entries ]} ∅ ∅.

(** ** Occurrences

    [entry] occurs in [line]: the declarative reading of
    [line.includes(entry)]. *)
Definition occurs (entry line : string) : Prop :=
  ∃ pre post, line = pre +:+ entry +:+ post.

(** Two blacklists with the same entries, whatever their order and
    repetitions. *)
Definition same_entries (blacklist blacklist' : list string) : Prop :=
  ∀ entry, entry ∈ blacklist ↔ entry ∈ blacklist'.

(** ** The shapes a run of [main] can take *)

Section RunShapes.

Variable path_join : list string → string.
Variable spawn : string → FS → ChildResult * FS.
Variable blacklist : list string.

Definition generate_events (argv : list string) : list Event :=
  [ConsoleInfo msg_step1;
   ConsoleInfo (msg_run (cmd_generate (Js.str (argv !! 2))));
   ExecSync (cmd_generate (Js.str (argv !! 2)))].

Definition locate_events (cwd : string) (entries : list string) : list Event :=
  [ConsoleInfo msg_step2; ReaddirSync (migrationsDir path_join cwd);
   ConsoleLog (msg_found (scriptPath path_join cwd entries))].

Definition deploy_events : list Event :=
  [ConsoleInfo msg_step4; ConsoleInfo (msg_run cmd_deploy); ExecSync cmd_deploy].

(** Step 1 has succeeded; Step 2 has found the script among [entries]. *)
Definition generate_ok (argv : list string) (fs : FS) : Prop :=
  Js.falsy (argv !! 2) = false ∧ child_ok (generated spawn argv fs).1 = true.

Definition located (argv : list string) (cwd : string) (fs : FS)
    (entries : list string) : Prop :=
  generate_ok argv fs ∧
  dirs (generated spawn argv fs).2 !! migrationsDir path_join cwd = Some entries ∧
  Js.falsy (selected entries) = false.

(** Step 3 as run by [main]: on the script found, in the file system
    the generator left. *)
Definition cleaning (argv : list string) (cwd : string) (fs : FS)
    (entries : list string) : Run nat :=
  clean blacklist (scriptPath path_join cwd entries) (generated spawn argv fs).2.

(** The runs of [main], one shape for each place where it can stop. *)
Inductive main_run (argv : list string) (cwd : string) (fs : FS) : Run unit → Prop :=
  | run_usage :
      Js.falsy (argv !! 2) = true →
      main_run argv cwd fs (mkRun [ConsoleError msg_usage] fs (Halted (Exit 1)))
  | run_generate_failed :
      Js.falsy (argv !! 2) = false →
      child_ok (generated spawn argv fs).1 = false →
      main_run argv cwd fs
        (mkRun (generate_events argv ++
                [ConsoleError (msg_failed (cmd_generate (Js.str (argv !! 2))))])
               (generated spawn argv fs).2 (Halted (Exit 1)))
  | run_no_root :
      generate_ok argv fs →
      dirs (generated spawn argv fs).2 !! migrationsDir path_join cwd = None →
      main_run argv cwd fs
        (mkRun (generate_events argv ++
                [ConsoleInfo msg_step2; ReaddirSync (migrationsDir path_join cwd)])
               (generated spawn argv fs).2
               (Halted (Throw (FsError "scandir" (migrationsDir path_join cwd)))))
  | run_not_found entries :
      generate_ok argv fs →
      dirs (generated spawn argv fs).2 !! migrationsDir path_join cwd = Some entries →
      Js.falsy (selected entries) = true →
      main_run argv cwd fs
        (mkRun (generate_events argv ++
                [ConsoleInfo msg_step2; ReaddirSync (migrationsDir path_join cwd);
                 ConsoleError msg_not_found])
               (generated spawn argv fs).2 (Halted (Exit 1)))
  | run_clean_halted entries h :
      located argv cwd fs entries →
      outcome (cleaning argv cwd fs entries) = Halted h →
      main_run argv cwd fs
        (mkRun (generate_events argv ++ locate_events cwd entries ++
                events (cleaning argv cwd fs entries))
               (final (cleaning argv cwd fs entries)) (Halted h))
  | run_deploy_failed entries n :
      located argv cwd fs entries →
      outcome (cleaning argv cwd fs entries) = Returned n →
      child_ok (spawn cmd_deploy (final (cleaning argv cwd fs entries))).1 = false →
      main_run argv cwd fs
        (mkRun (generate_events argv ++ locate_events cwd entries ++
                events (cleaning argv cwd fs entries) ++ deploy_events ++
                [ConsoleError (msg_failed cmd_deploy)])
               (spawn cmd_deploy (final (cleaning argv cwd fs entries))).2
               (Halted (Exit 1)))
  | run_completed entries n :
      located argv cwd fs entries →
      outcome (cleaning argv cwd fs entries) = Returned n →
      child_ok (spawn cmd_deploy (final (cleaning argv cwd fs entries))).1 = true →
      main_run argv cwd fs
        (mkRun (generate_events argv ++ locate_events cwd entries ++
                events (cleaning argv cwd fs entries) ++ deploy_events ++
                [ConsoleInfo msg_done])
               (spawn cmd_deploy (final (cleaning argv cwd fs entries))).2
               (Returned ())).

End RunShapes.

(** * Proofs *)

(** ** Facts about [split], [join] and [includes] *)

Example split_ex : lines_of ("a" +:+ NL +:+ "b" +:+ NL) = ["a"; "b"; ""].
Proof. reflexivity. Qed.

Example sanitize_ex : sanitize linesToRemove example_script =
  ("CREATE TABLE X (...);" +:+ NL +:+ "CREATE INDEX y ON z;", 2).
Proof. reflexivity. Qed.

Lemma split_not_nil sep s : Js.split sep s ≠ [].
Proof.
  destruct s as [|c rest]; simpl; [done|].
  destruct (Ascii.eqb c sep); [done|].
  destruct (Js.split sep rest); done.
Qed.

Lemma split_pieces sep s :
  Forall (λ piece, has_code sep piece = false) (Js.split sep s).
Proof.
  induction s as [|c rest IH]; simpl.
  - by repeat constructor.
  - destruct (Ascii.eqb c sep) eqn:Hc.
    + by constructor.
    + destruct (Js.split sep rest) as [|piece pieces].
      * repeat constructor. simpl. by rewrite Hc.
      * inversion IH; subst. constructor; [|done]. simpl. by rewrite Hc.
Qed.

Lemma join_cons sep x y a :
  Js.join sep (x :: y :: a) = x +:+ sep +:+ Js.join sep (y :: a).
Proof. reflexivity. Qed.

Lemma join_String sep c piece pieces :
  Js.join sep (String c piece :: pieces) = String c (Js.join sep (piece :: pieces)).
Proof. by destruct pieces. Qed.

Lemma join_split sep s : Js.join (Js.chr sep) (Js.split sep s) = s.
Proof.
  induction s as [|c rest IH]; simpl; [done|].
  destruct (Ascii.eqb c sep) eqn:Hc.
  - apply Ascii.eqb_eq in Hc as ->.
    pose proof (split_not_nil sep rest) as Hne.
    destruct (Js.split sep rest) as [|piece pieces]; [done|].
    rewrite join_cons, IH. reflexivity.
  - pose proof (split_not_nil sep rest) as Hne.
    destruct (Js.split sep rest) as [|piece pieces]; [done|].
    by rewrite join_String, IH.
Qed.

Lemma split_piece sep x : has_code sep x = false → Js.split sep x = [x].
Proof.
  induction x as [|c x IH]; simpl; [done|].
  intros [Hc Hx]%orb_false_elim. by rewrite Hc, IH.
Qed.

Lemma split_app sep x rest :
  has_code sep x = false →
  Js.split sep (x +:+ Js.chr sep +:+ rest) = x :: Js.split sep rest.
Proof.
  induction x as [|c x IH]; simpl.
  - intros _. by rewrite Ascii.eqb_refl.
  - intros [Hc Hx]%orb_false_elim. by rewrite Hc, IH.
Qed.

Lemma split_join sep a :
  a ≠ [] → Forall (λ piece, has_code sep piece = false) a →
  Js.split sep (Js.join (Js.chr sep) a) = a.
Proof.
  induction a as [|x [|y a] IH]; intros Hne Hall; [done| |].
  - simpl. apply split_piece. by inversion Hall.
  - inversion Hall; subst. rewrite join_cons, split_app by done.
    f_equal. by apply IH.
Qed.

Lemma split_empty sep : Js.split sep "" = [""].
Proof. reflexivity. Qed.

Lemma append_String c s post : String c s +:+ post = String c (s +:+ post).
Proof. reflexivity. Qed.

Lemma append_assoc a b c : (a +:+ b) +:+ c = a +:+ b +:+ c.
Proof. induction a as [|d a IH]; [done|]. by rewrite !append_String, IH. Qed.

Lemma prefix_app s : ∀ line,
  String.prefix s line = true ↔ ∃ post, line = s +:+ post.
Proof.
  induction s as [|c s IH]; intros line; simpl.
  - destruct line; split; eauto.
  - destruct line as [|d line]; cbn [String.prefix].
    + split; [done|]. intros [post Hpost]. by rewrite append_String in Hpost.
    + destruct (ascii_dec c d) as [->|Hcd].
      * rewrite IH. split; intros [post Hpost]; exists post.
        -- by rewrite append_String, Hpost.
        -- rewrite append_String in Hpost. by injection Hpost.
      * split; [done|]. intros [post Hpost].
        rewrite append_String in Hpost. by injection Hpost.
Qed.

(** [includes] finds exactly the occurrences of [s] inside [line]. *)
Lemma includes_occurs line s :
  Js.includes line s = true ↔ ∃ pre post, line = pre +:+ s +:+ post.
Proof.
  induction line as [|c line IH]; cbn [Js.includes].
  - rewrite orb_false_r, prefix_app. split.
    + intros [post Hpost]. by exists "", post.
    + intros (pre & post & Hocc). destruct pre; [by exists post|].
      by rewrite append_String in Hocc.
  - rewrite orb_true_iff, prefix_app, IH. split.
    + intros [[post Hpost] | (pre & post & Hocc)].
      * by exists "", post.
      * exists (String c pre), post. by rewrite append_String, Hocc.
    + intros (pre & post & Hocc). destruct pre as [|d pre].
      * left. by exists post.
      * right. exists pre, post. rewrite append_String in Hocc. by injection Hocc.
Qed.

Lemma includes_empty_entry line : Js.includes line "" = true.
Proof. by destruct line. Qed.

Lemma includes_empty_line entry : entry ≠ "" → Js.includes "" entry = false.
Proof. by destruct entry. Qed.

(** ** Facts about [filter] *)

Lemma filter_length_le (p : string → bool) a : length (List.filter p a) ≤ length a.
Proof. induction a as [|x a IH]; simpl; [lia|]. destruct (p x); simpl; lia. Qed.

Lemma filter_same_length (p : string → bool) a :
  length (List.filter p a) = length a → List.filter p a = a.
Proof.
  induction a as [|x a IH]; simpl; [done|].
  pose proof (filter_length_le p a).
  destruct (p x); simpl; intros Hlen; [f_equal; apply IH; lia | lia].
Qed.

Lemma filter_filter (p q : string → bool) a :
  List.filter p (List.filter q a) = List.filter (λ x, q x && p x) a.
Proof.
  induction a as [|x a IH]; simpl; [done|].
  destruct (q x); simpl; [|done]. destruct (p x); by rewrite IH.
Qed.

Lemma filter_all (p : string → bool) a :
  Forall (λ x, p x = true) a → List.filter p a = a.
Proof. induction 1 as [|x a Hx _ IH]; simpl; [done|]. by rewrite Hx, IH. Qed.

Lemma filter_Forall (p : string → bool) (P : string → Prop) a :
  Forall P a → Forall P (List.filter p a).
Proof.
  induction 1 as [|x a Hx _ IH]; simpl; [constructor|].
  destruct (p x); [by constructor | done].
Qed.

Lemma filter_holds (p : string → bool) a : Forall (λ x, p x = true) (List.filter p a).
Proof.
  induction a as [|x a IH]; simpl; [constructor|].
  destruct (p x) eqn:Hx; [by constructor | done].
Qed.

Lemma filter_sublist (p : string → bool) a : List.filter p a `sublist_of` a.
Proof.
  induction a as [|x a IH]; simpl; [constructor|].
  destruct (p x); by constructor.
Qed.

Lemma filter_split_length (p : string → bool) a :
  length (List.filter p a) + length (List.filter (λ x, negb (p x)) a) = length a.
Proof.
  induction a as [|x a IH]; simpl; [done|]. destruct (p x); simpl; lia.
Qed.

Lemma unsafe_not_clean blacklist line :
  unsafe_line blacklist line = negb (clean_line blacklist line).
Proof.
  induction blacklist as [|b l IH]; simpl; [done|].
  rewrite IH. by destruct (Js.includes line b).
Qed.

Lemma removed_count_retained blacklist lines :
  removed_count blacklist lines = length lines - length (retained blacklist lines).
Proof.
  unfold removed_count, retained.
  pose proof (filter_split_length (clean_line blacklist) lines) as Hlen.
  rewrite (List.filter_ext _ (λ x, negb (clean_line blacklist x))).
  - lia.
  - intros x. apply unsafe_not_clean.
Qed.

(** ** The loop, pass by pass *)

(** One pass always leaves the joined filtered lines: when nothing is
    removed the content is not assigned, and it is that join already. *)
Lemma removeLine_eq entry content n :
  removeLine entry (content, n) =
  (Js.join NL (without entry (lines_of content)),
   n + (length (lines_of content) - length (without entry (lines_of content)))).
Proof.
  unfold removeLine, without, lines_of, Js.filter.
  set (L := Js.split Js.LF content).
  set (F := List.filter _ L).
  pose proof (filter_length_le (λ line, negb (Js.includes line entry)) L) as Hle.
  fold F in Hle.
  destruct (length F <? length L) eqn:Hlt; [done|].
  apply Nat.ltb_ge in Hlt.
  assert (F = L) as -> by (apply filter_same_length; fold F; lia).
  unfold L, NL. rewrite join_split. f_equal. lia.
Qed.

Lemma retained_nil lines : retained [] lines = lines.
Proof. apply filter_all, Forall_forall. done. Qed.

Lemma retained_cons entry blacklist lines :
  retained (entry :: blacklist) lines = retained blacklist (without entry lines).
Proof.
  unfold retained, without, Js.filter. rewrite filter_filter.
  apply List.filter_ext. intros line. reflexivity.
Qed.

Lemma retained_length_le blacklist lines :
  length (retained blacklist lines) ≤ length lines.
Proof. apply filter_length_le. Qed.

Lemma without_pieces entry content :
  Forall (λ piece, has_code Js.LF piece = false) (without entry (lines_of content)).
Proof. apply filter_Forall, split_pieces. Qed.

Lemma clean_line_empty blacklist :
  Forall (λ entry, entry ≠ "") blacklist → clean_line blacklist "" = true.
Proof.
  induction 1 as [|b l Hb _ IH]; [done|].
  unfold clean_line in *. cbn [forallb].
  by rewrite includes_empty_line, IH.
Qed.

Lemma join_retained_empty blacklist : Js.join NL (retained blacklist [""]) = "".
Proof. unfold retained. simpl. by destruct (clean_line blacklist ""). Qed.

Lemma sanitize_loop blacklist content :
  sanitize blacklist content = loop blacklist (content, 0).
Proof. reflexivity. Qed.

Lemma lines_of_join a :
  a ≠ [] → Forall (λ piece, has_code Js.LF piece = false) a →
  lines_of (Js.join NL a) = a.
Proof. apply split_join. Qed.

Lemma join_lines_of content : Js.join NL (lines_of content) = content.
Proof. apply join_split. Qed.

Lemma loop_cons entry blacklist st :
  loop (entry :: blacklist) st = loop blacklist (removeLine entry st).
Proof. reflexivity. Qed.

(** The content after the loop, for every blacklist. *)
Lemma loop_content blacklist : ∀ content n,
  (loop blacklist (content, n)).1 =
  Js.join NL (retained blacklist (lines_of content)).
Proof.
  induction blacklist as [|entry blacklist IH]; intros content n.
  - simpl. by rewrite retained_nil, join_lines_of.
  - rewrite loop_cons, removeLine_eq, IH.
    rewrite retained_cons.
    destruct (without entry (lines_of content)) as [|x F] eqn:HF.
    + change (lines_of (Js.join NL [])) with [""].
      by rewrite join_retained_empty.
    + rewrite lines_of_join; [done|done|].
      rewrite <- HF. apply without_pieces.
Qed.

(** The count after the loop, when no entry is the empty string. *)
Lemma loop_count blacklist : ∀ content n,
  Forall (λ entry, entry ≠ "") blacklist →
  (loop blacklist (content, n)).2 =
  n + (length (lines_of content) - length (retained blacklist (lines_of content))).
Proof.
  induction blacklist as [|entry blacklist IH]; intros content n Hne.
  - simpl. rewrite retained_nil. lia.
  - inversion Hne as [|? ? Hentry Hrest]; subst.
    rewrite loop_cons, removeLine_eq, IH by done.
    rewrite retained_cons.
    pose proof (filter_length_le (λ line, negb (Js.includes line entry))
                  (lines_of content)) as Hle.
    fold (Js.filter (λ line, negb (Js.includes line entry)) (lines_of content)) in Hle.
    fold (without entry (lines_of content)) in Hle.
    destruct (without entry (lines_of content)) as [|x F] eqn:HF.
    + change (lines_of (Js.join NL [])) with [""].
      unfold retained. cbn [List.filter]. rewrite clean_line_empty by done.
      simpl. lia.
    + rewrite lines_of_join; [|done|].
      * pose proof (retained_length_le blacklist (x :: F)). simpl in *. lia.
      * rewrite <- HF. apply without_pieces.
Qed.

Lemma sanitize_content blacklist content :
  (sanitize blacklist content).1 =
  Js.join NL (retained blacklist (lines_of content)).
Proof. rewrite sanitize_loop. apply loop_content. Qed.

Lemma sanitize_count blacklist content :
  Forall (λ entry, entry ≠ "") blacklist →
  (sanitize blacklist content).2 =
  length (lines_of content) - length (retained blacklist (lines_of content)).
Proof. intros Hne. rewrite sanitize_loop, loop_count by done. lia. Qed.

(** A script none of whose lines is unsafe has no empty entry against it. *)
Lemma all_clean_no_empty_entry blacklist content :
  Forall (λ line, clean_line blacklist line = true) (lines_of content) →
  Forall (λ entry, entry ≠ "") blacklist.
Proof.
  intros Hall. apply Forall_forall. intros entry Hin ->.
  pose proof (split_not_nil Js.LF content) as Hnil. fold (lines_of content) in Hnil.
  destruct (lines_of content) as [|line lines]; [done|].
  inversion Hall as [|? ? Hline _]; subst.
  unfold clean_line in Hline. rewrite forallb_forall in Hline.
  apply list_elem_of_In in Hin. specialize (Hline _ Hin).
  by rewrite includes_empty_entry in Hline.
Qed.

Lemma sanitize_clean blacklist content :
  Forall (λ line, clean_line blacklist line = true) (lines_of content) →
  sanitize blacklist content = (content, 0).
Proof.
  intros Hall.
  pose proof (sanitize_content blacklist content) as Hc.
  pose proof (sanitize_count blacklist content
                (all_clean_no_empty_entry _ _ Hall)) as Hn.
  unfold retained in *. rewrite filter_all in Hc, Hn by done.
  rewrite join_lines_of in Hc.
  destruct (sanitize blacklist content) as [c n]. simpl in *. f_equal; [done|lia].
Qed.

(** ** Runs of the steps, case by case *)

Lemma bind_returned {A B} (m : M A) (k : A → M B) fs a :
  outcome (m fs) = Returned a →
  bind m k fs = prepend (events (m fs)) (k a (final (m fs))).
Proof. intros H. unfold bind. by rewrite H. Qed.

Lemma bind_halted {A B} (m : M A) (k : A → M B) fs h :
  outcome (m fs) = Halted h →
  bind m k fs = mkRun (events (m fs)) (final (m fs)) (Halted h).
Proof. intros H. unfold bind. by rewrite H. Qed.

Lemma bind_ret {A B} (a : A) (k : A → M B) fs : bind (ret a) k fs = k a fs.
Proof. unfold bind, ret. simpl. by destruct (k a fs). Qed.

Lemma bind_emit {B} e (k : unit → M B) fs :
  bind (emit e) k fs = prepend [e] (k () fs).
Proof. reflexivity. Qed.

Lemma prepend_prepend {A} pre pre' (r : Run A) :
  prepend pre (prepend pre' r) = prepend (pre ++ pre') r.
Proof. unfold prepend. simpl. by rewrite app_assoc. Qed.

Lemma prepend_mkRun {A} pre evs fs (o : Outcome A) :
  prepend pre (mkRun evs fs o) = mkRun (pre ++ evs) fs o.
Proof. reflexivity. Qed.

Section Runs.

Variable path_join : list string → string.
Variable spawn : string → FS → ChildResult * FS.
Variable blacklist : list string.

Lemma runCommand_ok command fs :
  child_ok (spawn command fs).1 = true →
  runCommand spawn command fs =
  mkRun [ConsoleInfo (msg_run command); ExecSync command]
        (spawn command fs).2 (Returned ()).
Proof.
  intros H. unfold runCommand, try_catch, bind, execSync, console_info, emit.
  cbn [outcome events final]. by rewrite H.
Qed.

Lemma runCommand_failed command fs :
  child_ok (spawn command fs).1 = false →
  runCommand spawn command fs =
  mkRun [ConsoleInfo (msg_run command); ExecSync command;
         ConsoleError (msg_failed command)]
        (spawn command fs).2 (Halted (Exit 1)).
Proof.
  intros H. unfold runCommand, try_catch, bind, execSync, console_info, emit.
  cbn [outcome events final]. by rewrite H.
Qed.

Lemma locate_no_root cwd fs :
  dirs fs !! migrationsDir path_join cwd = None →
  locate path_join cwd fs =
  mkRun [ConsoleInfo msg_step2; ReaddirSync (migrationsDir path_join cwd)] fs
        (Halted (Throw (FsError "scandir" (migrationsDir path_join cwd)))).
Proof.
  intros H. unfold locate, console_info. rewrite bind_emit.
  unfold bind at 1, readdirSync. by rewrite H.
Qed.

Lemma locate_not_found cwd fs entries :
  dirs fs !! migrationsDir path_join cwd = Some entries →
  Js.falsy (selected entries) = true →
  locate path_join cwd fs =
  mkRun [ConsoleInfo msg_step2; ReaddirSync (migrationsDir path_join cwd);
         ConsoleError msg_not_found] fs (Halted (Exit 1)).
Proof.
  intros H Hf. unfold locate, console_info. rewrite bind_emit.
  unfold bind at 1, readdirSync. rewrite H. cbn [outcome events final].
  fold (selected entries). rewrite Hf. reflexivity.
Qed.

Lemma locate_found cwd fs entries :
  dirs fs !! migrationsDir path_join cwd = Some entries →
  Js.falsy (selected entries) = false →
  locate path_join cwd fs =
  mkRun [ConsoleInfo msg_step2; ReaddirSync (migrationsDir path_join cwd);
         ConsoleLog (msg_found (scriptPath path_join cwd entries))] fs
        (Returned (scriptPath path_join cwd entries)).
Proof.
  intros H Hf. unfold locate, console_info. rewrite bind_emit.
  unfold bind at 1, readdirSync. rewrite H. cbn [outcome events final].
  fold (selected entries). rewrite Hf. reflexivity.
Qed.

Lemma clean_no_file path fs :
  files fs !! path = None →
  clean blacklist path fs =
  mkRun [ConsoleInfo msg_step3; ReadFileSync path] fs
        (Halted (Throw (FsError "open" path))).
Proof.
  intros H. unfold clean, console_info. rewrite bind_emit.
  unfold bind at 1, readFileSync. by rewrite H.
Qed.

Lemma clean_untouched path fs content :
  files fs !! path = Some content →
  (sanitize blacklist content).2 = 0 →
  clean blacklist path fs =
  mkRun [ConsoleInfo msg_step3; ReadFileSync path; ConsoleInfo msg_clean] fs
        (Returned 0).
Proof.
  intros H Hn. unfold clean, console_info. rewrite bind_emit.
  unfold bind at 1, readFileSync. rewrite H. cbn [outcome events final].
  rewrite Hn. reflexivity.
Qed.

Lemma clean_written path fs content :
  files fs !! path = Some content →
  0 < (sanitize blacklist content).2 →
  path ∉ locked fs →
  clean blacklist path fs =
  mkRun [ConsoleInfo msg_step3; ReadFileSync path;
         WriteFileSync path (sanitize blacklist content).1;
         ConsoleInfo (msg_removed (sanitize blacklist content).2)]
        (mkFS (dirs fs) (<[path := (sanitize blacklist content).1]> (files fs))
              (locked fs))
        (Returned (sanitize blacklist content).2).
Proof.
  intros H Hn Hw. unfold clean, console_info. rewrite bind_emit.
  unfold bind at 1, readFileSync. rewrite H. cbn [outcome events final].
  apply Nat.ltb_lt in Hn. rewrite Hn.
  unfold bind, writeFileSync, emit, ret. cbn [outcome events final].
  rewrite decide_False by done. reflexivity.
Qed.

Lemma clean_write_refused path fs content :
  files fs !! path = Some content →
  0 < (sanitize blacklist content).2 →
  path ∈ locked fs →
  clean blacklist path fs =
  mkRun [ConsoleInfo msg_step3; ReadFileSync path;
         WriteFileSync path (sanitize blacklist content).1] fs
        (Halted (Throw (FsError "open" path))).
Proof.
  intros H Hn Hw. unfold clean, console_info. rewrite bind_emit.
  unfold bind at 1, readFileSync. rewrite H. cbn [outcome events final].
  apply Nat.ltb_lt in Hn. rewrite Hn.
  unfold bind, writeFileSync, emit, ret. cbn [outcome events final].
  rewrite decide_True by done. reflexivity.
Qed.

Lemma main_usage argv cwd fs :
  Js.falsy (argv !! 2) = true →
  main path_join spawn blacklist argv cwd fs =
  mkRun [ConsoleError msg_usage] fs (Halted (Exit 1)).
Proof. intros H. unfold main. by rewrite H. Qed.

Lemma main_generate_failed argv cwd fs :
  Js.falsy (argv !! 2) = false →
  child_ok (generated spawn argv fs).1 = false →
  main path_join spawn blacklist argv cwd fs =
  mkRun [ConsoleInfo msg_step1;
         ConsoleInfo (msg_run (cmd_generate (Js.str (argv !! 2))));
         ExecSync (cmd_generate (Js.str (argv !! 2)));
         ConsoleError (msg_failed (cmd_generate (Js.str (argv !! 2))))]
        (generated spawn argv fs).2 (Halted (Exit 1)).
Proof.
  intros H Hgen. unfold main. rewrite H.
  unfold when. rewrite bind_ret.
  unfold console_info at 1. rewrite bind_emit.
  rewrite (bind_halted _ _ _ (Exit 1)); rewrite runCommand_failed by done; reflexivity.
Qed.

Lemma main_generate_ok argv cwd fs :
  Js.falsy (argv !! 2) = false →
  child_ok (generated spawn argv fs).1 = true →
  main path_join spawn blacklist argv cwd fs =
  prepend [ConsoleInfo msg_step1;
           ConsoleInfo (msg_run (cmd_generate (Js.str (argv !! 2))));
           ExecSync (cmd_generate (Js.str (argv !! 2)))]
          (after_generate path_join spawn blacklist cwd (generated spawn argv fs).2).
Proof.
  intros H Hgen. unfold main. rewrite H.
  unfold when. rewrite bind_ret.
  unfold console_info at 1. rewrite bind_emit.
  rewrite (bind_returned _ _ _ ()); rewrite runCommand_ok by done; [|reflexivity].
  cbn [events final]. rewrite prepend_prepend. reflexivity.
Qed.

Lemma after_generate_no_root cwd fs :
  dirs fs !! migrationsDir path_join cwd = None →
  after_generate path_join spawn blacklist cwd fs =
  mkRun [ConsoleInfo msg_step2; ReaddirSync (migrationsDir path_join cwd)] fs
        (Halted (Throw (FsError "scandir" (migrationsDir path_join cwd)))).
Proof.
  intros H. unfold after_generate.
  rewrite (bind_halted _ _ _ (Throw (FsError "scandir" (migrationsDir path_join cwd))));
    rewrite locate_no_root by done; reflexivity.
Qed.

Lemma after_generate_not_found cwd fs entries :
  dirs fs !! migrationsDir path_join cwd = Some entries →
  Js.falsy (selected entries) = true →
  after_generate path_join spawn blacklist cwd fs =
  mkRun [ConsoleInfo msg_step2; ReaddirSync (migrationsDir path_join cwd);
         ConsoleError msg_not_found] fs (Halted (Exit 1)).
Proof.
  intros H Hf. unfold after_generate.
  rewrite (bind_halted _ _ _ (Exit 1));
    rewrite (locate_not_found _ _ entries) by done; reflexivity.
Qed.

Lemma after_generate_found cwd fs entries :
  dirs fs !! migrationsDir path_join cwd = Some entries →
  Js.falsy (selected entries) = false →
  after_generate path_join spawn blacklist cwd fs =
  prepend [ConsoleInfo msg_step2; ReaddirSync (migrationsDir path_join cwd);
           ConsoleLog (msg_found (scriptPath path_join cwd entries))]
          ((do linesRemovedCount <- clean blacklist (scriptPath path_join cwd entries);
            finish spawn) fs).
Proof.
  intros H Hf. unfold after_generate.
  rewrite (bind_returned _ _ _ (scriptPath path_join cwd entries));
    rewrite (locate_found _ _ entries) by done; reflexivity.
Qed.

End Runs.

(** ** Facts about [sort] and [reverse] *)

Global Instance le_total : Total Js.le.
Proof. intros s t. apply String.leb_total. Qed.

Global Instance le_trans : Transitive Js.le.
Proof.
  unfold Js.le, String.leb. intros s.
  induction s as [|a s IH]; intros [|b t] [|c u]; simpl; try done.
  unfold Ascii.compare.
  destruct (N.compare_spec (Ascii.N_of_ascii a) (Ascii.N_of_ascii b)) as [Hab|Hab|Hab],
           (N.compare_spec (Ascii.N_of_ascii b) (Ascii.N_of_ascii c)) as [Hbc|Hbc|Hbc],
           (N.compare_spec (Ascii.N_of_ascii a) (Ascii.N_of_ascii c)) as [Hac|Hac|Hac];
    try done; try lia.
  apply IH.
Qed.

Global Instance le_antisym : AntiSymm (=) Js.le.
Proof. intros s t. apply String.leb_antisym. Qed.

Lemma sort_sorted a : StronglySorted Js.le (Js.sort a).
Proof. apply (StronglySorted_merge_sort Js.le). Qed.

Lemma sort_permutation a : Js.sort a ≡ₚ a.
Proof. apply merge_sort_Permutation. Qed.

Lemma reverse_sort_permutation a : Js.reverse (Js.sort a) ≡ₚ a.
Proof. unfold Js.reverse. by rewrite reverse_Permutation, sort_permutation. Qed.

Lemma reverse_sort_descending a :
  StronglySorted (flip Js.le) (Js.reverse (Js.sort a)).
Proof.
  apply Sorted_StronglySorted.
  - intros x y z Hxy Hyz. unfold flip in *. by transitivity y.
  - apply Sorted_reverse, StronglySorted_Sorted, sort_sorted.
Qed.

Lemma reverse_sort_length a : length (Js.reverse (Js.sort a)) = length a.
Proof. by rewrite (Permutation_length (reverse_sort_permutation a)). Qed.

(** ** Whole runs of [main] *)

Section WholeRuns.

Variable path_join : list string → string.
Variable spawn : string → FS → ChildResult * FS.
Variable blacklist : list string.

Lemma finish_ok fs :
  child_ok (spawn cmd_deploy fs).1 = true →
  finish spawn fs =
  mkRun [ConsoleInfo msg_step4; ConsoleInfo (msg_run cmd_deploy); ExecSync cmd_deploy;
         ConsoleInfo msg_done] (spawn cmd_deploy fs).2 (Returned ()).
Proof.
  intros Hok. unfold finish, console_info at 1. rewrite bind_emit.
  rewrite (bind_returned _ _ _ ()); rewrite runCommand_ok by done; reflexivity.
Qed.

Lemma finish_failed fs :
  child_ok (spawn cmd_deploy fs).1 = false →
  finish spawn fs =
  mkRun [ConsoleInfo msg_step4; ConsoleInfo (msg_run cmd_deploy); ExecSync cmd_deploy;
         ConsoleError (msg_failed cmd_deploy)] (spawn cmd_deploy fs).2 (Halted (Exit 1)).
Proof.
  intros Hok. unfold finish, console_info at 1. rewrite bind_emit.
  rewrite (bind_halted _ _ _ (Exit 1)); rewrite runCommand_failed by done; reflexivity.
Qed.

Lemma writes_prepend {A} pre (r : Run A) :
  writes pre = [] → writes (events (prepend pre r)) = writes (events r).
Proof. intros Hpre. unfold prepend, writes in *. cbn [events]. by rewrite omap_app, Hpre. Qed.

Lemma finish_writes fs : writes (events (finish spawn fs)) = [].
Proof.
  destruct (child_ok (spawn cmd_deploy fs).1) eqn:Hok.
  - by rewrite finish_ok.
  - by rewrite finish_failed.
Qed.

(** The writes of a whole run are those of Step 3, on the file system
    the generator left. *)
Lemma main_writes argv cwd fs :
  writes (events (main path_join spawn blacklist argv cwd fs)) = [] ∨
  ∃ path content,
    files (generated spawn argv fs).2 !! path = Some content ∧
    0 < (sanitize blacklist content).2 ∧
    writes (events (main path_join spawn blacklist argv cwd fs))
    = [(path, (sanitize blacklist content).1)].
Proof.
  destruct (Js.falsy (argv !! 2)) eqn:Hname; [left; by rewrite main_usage|].
  destruct (child_ok (generated spawn argv fs).1) eqn:Hgen;
    [|left; by rewrite main_generate_failed].
  rewrite main_generate_ok by done. rewrite writes_prepend by done.
  set (fs1 := (generated spawn argv fs).2).
  destruct (dirs fs1 !! migrationsDir path_join cwd) as [entries|] eqn:Hroot;
    [|left; by rewrite after_generate_no_root].
  destruct (Js.falsy (selected entries)) eqn:Hsel;
    [left; by rewrite (after_generate_not_found _ _ _ _ _ entries)|].
  rewrite (after_generate_found _ _ _ _ _ entries) by done.
  rewrite writes_prepend by done.
  set (path := scriptPath path_join cwd entries).
  destruct (files fs1 !! path) as [content|] eqn:Hfile.
  - destruct (decide ((sanitize blacklist content).2 = 0)) as [Hn|Hn].
    + left. rewrite (bind_returned _ _ _ 0);
        rewrite (clean_untouched _ _ _ content) by done; [|reflexivity].
      rewrite writes_prepend by done. apply finish_writes.
    + assert (0 < (sanitize blacklist content).2) as Hpos by lia.
      right. exists path, content. split; [done|]. split; [done|].
      destruct (decide (path ∈ locked fs1)) as [Hlocked|Hfree].
      * rewrite (bind_halted _ _ _ (Throw (FsError "open" path)));
          rewrite (clean_write_refused _ _ _ content) by done; reflexivity.
      * rewrite (bind_returned _ _ _ (sanitize blacklist content).2);
          rewrite (clean_written _ _ _ content) by done; [|reflexivity].
        unfold prepend, writes. cbn [events]. rewrite omap_app.
        fold (writes (events (finish spawn
          (mkFS (dirs fs1) (<[path:=(sanitize blacklist content).1]> (files fs1))
                (locked fs1))))).
        by rewrite finish_writes.
  - left. rewrite (bind_halted _ _ _ (Throw (FsError "open" path)));
      rewrite clean_no_file by done; reflexivity.
Qed.

End WholeRuns.

(** ** Cleaning: retained lines and count *)

(** C1, as stated, fails: with an empty string among the entries, the
    one line of the script ["BAD"] is counted twice, once for the entry
    it contains and once more as the empty content left behind. *)
Lemma sanitize_count_counterexample :
  lines_of "BAD" = ["BAD"] ∧
  removed_count ["BAD"; ""] (lines_of "BAD") = 1 ∧
  (sanitize ["BAD"; ""] "BAD").2 = 2 ∧
  sanitize ["BAD"; ""] "BAD" ≠ sanitize_specified ["BAD"; ""] "BAD".
Proof. repeat split; try reflexivity. discriminate. Qed.

(** C1, amended: for every script and every blacklist the content left
    by the loop is the join of the lines that contain no entry, in
    their order; when no entry is the empty string the count is the
    number of input lines that contain some entry.  On the four-line
    example the two CREATE lines remain and the count is 2. *)
Theorem sanitize_retains_clean_lines (blacklist : list string) (content : string) :
  (sanitize blacklist content).1 = Js.join NL (retained blacklist (lines_of content)) ∧
  retained blacklist (lines_of content) `sublist_of` lines_of content ∧
  (∀ line, line ∈ retained blacklist (lines_of content) ↔
           line ∈ lines_of content ∧ unsafe_line blacklist line = false) ∧
  (Forall (λ entry, entry ≠ "") blacklist →
   sanitize blacklist content = sanitize_specified blacklist content) ∧
  lines_of example_script = example_lines ∧
  sanitize linesToRemove example_script =
    (Js.join NL ["CREATE TABLE X (...);"; "CREATE INDEX y ON z;"], 2).
Proof.
  split; [apply sanitize_content|].
  split; [apply filter_sublist|].
  split.
  { intros line. unfold retained. rewrite !list_elem_of_In, filter_In.
    rewrite unsafe_not_clean, negb_false_iff. done. }
  split; [|split; reflexivity].
  intros Hne. unfold sanitize_specified.
  rewrite removed_count_retained, <- sanitize_count, <- sanitize_content by done.
  by destruct (sanitize blacklist content).
Qed.

Lemma sanitize_retains_clean_lines_witness :
  Forall (λ entry, entry ≠ "") linesToRemove ∧
  sanitize linesToRemove example_script =
  sanitize_specified linesToRemove example_script.
Proof.
  assert (Forall (λ entry : string, entry ≠ "") linesToRemove) as Hne
    by (repeat constructor; discriminate).
  split; [exact Hne|].
  exact (proj1 (proj2 (proj2 (proj2
    (sanitize_retains_clean_lines linesToRemove example_script)))) Hne).
Defined.

(** ** Cleaning twice *)

(** C3, as stated, fails: against the blacklist made of the empty
    string, the cleaned script is empty, and cleaning it again still
    reports one removed line. *)
Lemma sanitize_again_counterexample :
  sanitize [""] "x" = ("", 1) ∧
  sanitize [""] (sanitize [""] "x").1 = ("", 1) ∧
  (sanitize [""] (sanitize [""] "x").1).2 ≠ 0.
Proof. repeat split; try reflexivity. discriminate. Qed.

(** C3, amended: for every script and every blacklist, cleaning the
    cleaned script leaves its content as it is; when no entry is the
    empty string the second cleaning removes no line. *)
Theorem sanitize_idempotent (blacklist : list string) (content : string) :
  (sanitize blacklist (sanitize blacklist content).1).1 = (sanitize blacklist content).1 ∧
  (Forall (λ entry, entry ≠ "") blacklist →
   sanitize blacklist (sanitize blacklist content).1 = ((sanitize blacklist content).1, 0)).
Proof.
  assert ((sanitize blacklist (sanitize blacklist content).1).1
          = (sanitize blacklist content).1) as Hcontent.
  { rewrite !sanitize_content.
    destruct (retained blacklist (lines_of content)) as [|x kept] eqn:Hkept.
    - change (lines_of (Js.join NL [])) with [""]. apply join_retained_empty.
    - rewrite lines_of_join; [|done|].
      + f_equal. rewrite <- Hkept. unfold retained. apply filter_all, filter_holds.
      + rewrite <- Hkept. apply filter_Forall, split_pieces. }
  split; [exact Hcontent|]. intros Hne.
  apply sanitize_clean.
  rewrite sanitize_content.
  destruct (retained blacklist (lines_of content)) as [|x kept] eqn:Hkept.
  - change (lines_of (Js.join NL [])) with [""].
    repeat constructor. by apply clean_line_empty.
  - rewrite lines_of_join; [|done|].
    + rewrite <- Hkept. apply filter_holds.
    + rewrite <- Hkept. apply filter_Forall, split_pieces.
Qed.

Lemma sanitize_idempotent_witness :
  Forall (λ entry, entry ≠ "") linesToRemove ∧
  sanitize linesToRemove (sanitize linesToRemove example_script).1 =
  ((sanitize linesToRemove example_script).1, 0).
Proof.
  assert (Forall (λ entry : string, entry ≠ "") linesToRemove) as Hne
    by (repeat constructor; discriminate).
  split; [exact Hne|].
  exact (proj2 (sanitize_idempotent linesToRemove example_script) Hne).
Defined.

(** ** The loop against a single pass *)

(** C10, as stated, fails: the first entry empties the script of two
    lines, and the empty entry then removes, and counts, the empty
    content as a third line. *)
Lemma sanitize_single_pass_counterexample :
  sanitize ["x"; ""] ("x" +:+ NL +:+ "xx") = ("", 3) ∧
  single_pass ["x"; ""] ("x" +:+ NL +:+ "xx") = ("", 2) ∧
  sanitize ["x"; ""] ("x" +:+ NL +:+ "xx") ≠ single_pass ["x"; ""] ("x" +:+ NL +:+ "xx").
Proof. repeat split; try reflexivity. discriminate. Qed.

(** C10, amended: for every content and every blacklist the loop leaves
    the content of the single pass; when no entry is the empty string
    it also gives the count of the single pass, the number of lines
    minus the number of retained lines, so that a line containing
    several entries is counted once. *)
Theorem sanitize_refines_single_pass (blacklist : list string) (content : string) :
  (sanitize blacklist content).1 = (single_pass blacklist content).1 ∧
  (Forall (λ entry, entry ≠ "") blacklist →
   sanitize blacklist content = single_pass blacklist content ∧
   (sanitize blacklist content).2 =
     length (lines_of content) - length (retained blacklist (lines_of content))) ∧
  sanitize ["a"; "b"] ("ab" +:+ NL +:+ "c") = ("c", 1).
Proof.
  split; [apply sanitize_content|]. split; [|reflexivity].
  intros Hne. pose proof (sanitize_content blacklist content) as Hc.
  pose proof (sanitize_count blacklist content Hne) as Hn.
  split; [|exact Hn].
  unfold single_pass. rewrite <- Hc, <- Hn. by destruct (sanitize blacklist content).
Qed.

Lemma sanitize_refines_single_pass_witness :
  Forall (λ entry, entry ≠ "") ["a"; "b"] ∧
  sanitize ["a"; "b"] ("ab" +:+ NL +:+ "c") = single_pass ["a"; "b"] ("ab" +:+ NL +:+ "c").
Proof.
  assert (Forall (λ entry : string, entry ≠ "") ["a"; "b"]) as Hne
    by (repeat constructor; discriminate).
  split; [exact Hne|].
  exact (proj1 (proj1 (proj2
    (sanitize_refines_single_pass ["a"; "b"] ("ab" +:+ NL +:+ "c"))) Hne)).
Defined.

(** ** Writing the script back *)

(** C2: in a run of [main] the script is written at most once, by
    Step 3, and only when the count of removed lines is positive; what
    is written is the cleaned content of the file read.  When no line
    of the script contains an entry of the blacklist, the count is 0,
    Step 3 writes nothing and leaves the file system, and so the
    content of the script, as it was. *)
Theorem script_written_only_when_removed (path_join : list string → string)
    (spawn : string → FS → ChildResult * FS) (blacklist : list string) :
  (∀ argv cwd fs,
     writes (events (main path_join spawn blacklist argv cwd fs)) = [] ∨
     ∃ path content,
       files (generated spawn argv fs).2 !! path = Some content ∧
       0 < (sanitize blacklist content).2 ∧
       writes (events (main path_join spawn blacklist argv cwd fs))
       = [(path, (sanitize blacklist content).1)]) ∧
  (∀ path fs content,
     files fs !! path = Some content →
     ((sanitize blacklist content).2 = 0 →
      writes (events (clean blacklist path fs)) = [] ∧
      final (clean blacklist path fs) = fs) ∧
     (Forall (λ line, unsafe_line blacklist line = false) (lines_of content) →
      sanitize blacklist content = (content, 0) ∧
      clean blacklist path fs =
        mkRun [ConsoleInfo msg_step3; ReadFileSync path; ConsoleInfo msg_clean] fs
              (Returned 0) ∧
      files (final (clean blacklist path fs)) !! path = Some content)).
Proof.
  split; [intros argv cwd fs; apply main_writes|].
  intros path fs content Hfile.
  assert ((sanitize blacklist content).2 = 0 →
          clean blacklist path fs =
          mkRun [ConsoleInfo msg_step3; ReadFileSync path; ConsoleInfo msg_clean] fs
                (Returned 0)) as Hzero.
  { intros Hn. by apply clean_untouched with content. }
  split.
  - intros Hn. by rewrite Hzero.
  - intros Hall.
    assert (sanitize blacklist content = (content, 0)) as Hs.
    { apply sanitize_clean. eapply Forall_impl; [exact Hall|].
      intros line Hline. simpl in Hline. rewrite unsafe_not_clean in Hline.
      by apply negb_false_iff. }
    split; [done|]. rewrite Hzero by (by rewrite Hs). done.
Qed.

Lemma script_written_only_when_removed_witness :
  files fs_clean_script !! app_script = Some "CREATE TABLE X (...);" ∧
  Forall (λ line, unsafe_line linesToRemove line = false)
         (lines_of "CREATE TABLE X (...);") ∧
  sanitize linesToRemove "CREATE TABLE X (...);" = ("CREATE TABLE X (...);", 0) ∧
  clean linesToRemove app_script fs_clean_script =
    mkRun [ConsoleInfo msg_step3; ReadFileSync app_script; ConsoleInfo msg_clean]
          fs_clean_script (Returned 0) ∧
  files (final (clean linesToRemove app_script fs_clean_script)) !! app_script
    = Some "CREATE TABLE X (...);".
Proof.
  assert (files fs_clean_script !! app_script = Some "CREATE TABLE X (...);") as Hfile
    by (vm_compute; reflexivity).
  assert (Forall (λ line, unsafe_line linesToRemove line = false)
                 (lines_of "CREATE TABLE X (...);")) as Hall
    by (repeat constructor).
  split; [exact Hfile|]. split; [exact Hall|].
  exact (proj2 (proj2 (script_written_only_when_removed posix_join (spawn_exit 0)
                         linesToRemove)
                  app_script fs_clean_script "CREATE TABLE X (...);" Hfile) Hall).
Defined.

(** ** Step 2, the locator *)

(** C4: Step 2 lists the entries of the migrations root, orders them
    descending by name, takes the entry at index 1 and returns the path
    of [migration.sql] inside it; for the three entries of the example
    the entry taken is ["20240102_b"]. *)
Theorem locate_selects_second (path_join : list string → string) (cwd : string)
    (fs : FS) (entries : list string)
    (Hroot : dirs fs !! migrationsDir path_join cwd = Some entries) :
  let allMigrations := Js.reverse (Js.sort entries) in
  allMigrations ≡ₚ entries ∧
  StronglySorted (flip Js.le) allMigrations ∧
  (∀ latest, allMigrations !! 1 = Some latest → latest ≠ "" →
     locate path_join cwd fs =
     mkRun [ConsoleInfo msg_step2; ReaddirSync (migrationsDir path_join cwd);
            ConsoleLog (msg_found (path_join [migrationsDir path_join cwd; latest;
                                              "migration.sql"]))]
           fs
           (Returned (path_join [migrationsDir path_join cwd; latest; "migration.sql"]))) ∧
  Js.reverse (Js.sort app_entries) = ["migration_lock.toml"; "20240102_b"; "20240101_a"] ∧
  Js.reverse (Js.sort app_entries) !! 1 = Some "20240102_b".
Proof.
  intros allMigrations.
  split; [apply reverse_sort_permutation|].
  split; [apply reverse_sort_descending|].
  split; [|split; reflexivity].
  intros latest Hlatest Hne.
  rewrite (locate_found _ _ _ entries); [|done|].
  - unfold scriptPath, selected. fold allMigrations. by rewrite Hlatest.
  - unfold selected. fold allMigrations. rewrite Hlatest. simpl.
    by apply String.eqb_neq.
Qed.

Lemma locate_selects_second_witness :
  dirs fs_example !! migrationsDir posix_join "/app" = Some app_entries ∧
  locate posix_join "/app" fs_example =
  mkRun [ConsoleInfo msg_step2; ReaddirSync app_root;
         ConsoleLog (msg_found app_script)]
        fs_example (Returned app_script).
Proof.
  assert (dirs fs_example !! migrationsDir posix_join "/app" = Some app_entries)
    as Hroot by (vm_compute; reflexivity).
  split; [exact Hroot|].
  apply (proj1 (proj2 (proj2
    (locate_selects_second posix_join "/app" fs_example app_entries Hroot)))
    "20240102_b"); [reflexivity | discriminate].
Defined.

(** ** The command runner *)

Lemma child_ok_iff r : child_ok r = true ↔ r = Exited 0.
Proof. destruct r as [[|p]| |]; simpl; split; (done || discriminate). Qed.

Lemma child_not_ok_iff r : child_ok r = false ↔ r ≠ Exited 0.
Proof. rewrite <- child_ok_iff. by destruct (child_ok r). Qed.

(** C8: [runCommand] returns exactly when the child exits with status
    zero; otherwise it reports on the error stream that the command,
    named in full between quotes, has failed, and ends the process
    with exit code 1.  In both cases the command is started once. *)
Theorem runCommand_returns_iff_zero (spawn : string → FS → ChildResult * FS)
    (command : string) (fs : FS) :
  let r := runCommand spawn command fs in
  (outcome r = Returned () ↔ (spawn command fs).1 = Exited 0) ∧
  ((spawn command fs).1 ≠ Exited 0 →
     outcome r = Halted (Exit 1) ∧
     events r = [ConsoleInfo (msg_run command); ExecSync command;
                 ConsoleError (msg_failed command)] ∧
     last (events r) =
       Some (ConsoleError ("Command " +:+ (Js.chr Js.DQUOTE +:+ command
                                           +:+ Js.chr Js.DQUOTE) +:+ " failed.")) ∧
     ∃ msg, errors (events r) = [msg] ∧ occurs command msg) ∧
  commands (events r) = [command] ∧
  final r = (spawn command fs).2.
Proof.
  intros r. subst r.
  destruct (child_ok (spawn command fs).1) eqn:Hok.
  - rewrite runCommand_ok by done. apply child_ok_iff in Hok.
    repeat split; try done.
  - rewrite runCommand_failed by done. apply child_not_ok_iff in Hok.
    split; [done|]. split; [|done]. intros _.
    split; [done|]. split; [done|]. split; [reflexivity|].
    exists (msg_failed command). split; [reflexivity|].
    exists ("Command " +:+ Js.chr Js.DQUOTE), (Js.chr Js.DQUOTE +:+ " failed.").
    unfold msg_failed, quoted. by rewrite !append_assoc.
Qed.

Lemma runCommand_returns_iff_zero_witness :
  (spawn_exit 2 cmd_deploy fs_example).1 ≠ Exited 0 ∧
  outcome (runCommand (spawn_exit 2) cmd_deploy fs_example) = Halted (Exit 1) ∧
  events (runCommand (spawn_exit 2) cmd_deploy fs_example) =
    [ConsoleInfo (msg_run cmd_deploy); ExecSync cmd_deploy;
     ConsoleError (msg_failed cmd_deploy)] ∧
  last (events (runCommand (spawn_exit 2) cmd_deploy fs_example)) =
    Some (ConsoleError ("Command " +:+ (Js.chr Js.DQUOTE +:+ "npx prisma migrate deploy"
                                        +:+ Js.chr Js.DQUOTE) +:+ " failed.")).
Proof.
  assert ((spawn_exit 2 cmd_deploy fs_example).1 ≠ Exited 0) as Hfail by discriminate.
  split; [exact Hfail|].
  destruct (proj1 (proj2
    (runCommand_returns_iff_zero (spawn_exit 2) cmd_deploy fs_example)) Hfail)
    as (Hout & Hevents & Hlast & _).
  split; [exact Hout|]. split; [exact Hevents|]. exact Hlast.
Defined.

(** ** The phases of [main] *)

Lemma falsy_name (argv : list string) name : argv !! 2 = Some name → name ≠ "" → Js.falsy (argv !! 2) = false.
Proof. intros -> Hne. simpl. by apply String.eqb_neq. Qed.

(** C6: without a migration name, absent or empty, [main] reports the
    usage on the error stream and ends the process with exit code 1;
    no command is started and the file system is neither read nor
    written. *)
Theorem main_requires_name (path_join : list string → string)
    (spawn : string → FS → ChildResult * FS) (blacklist argv : list string)
    (cwd : string) (fs : FS)
    (Hname : argv !! 2 = None ∨ argv !! 2 = Some "") :
  let r := main path_join spawn blacklist argv cwd fs in
  r = mkRun [ConsoleError msg_usage] fs (Halted (Exit 1)) ∧
  commands (events r) = [] ∧
  fs_calls (events r) = [] ∧
  final r = fs.
Proof.
  intros r. subst r. rewrite main_usage; [done|].
  by destruct Hname as [-> | ->].
Qed.

Lemma main_requires_name_witness :
  (["node"; "migrate-safe.ts"] !! 2 = None ∨
   ["node"; "migrate-safe.ts"] !! 2 = Some "") ∧
  main posix_join (spawn_exit 0) linesToRemove ["node"; "migrate-safe.ts"] "/app" fs_example
  = mkRun [ConsoleError msg_usage] fs_example (Halted (Exit 1)).
Proof.
  assert (["node"; "migrate-safe.ts"] !! 2 = None ∨
          ["node"; "migrate-safe.ts"] !! 2 = Some "") as Hname
    by (left; reflexivity).
  split; [exact Hname|].
  exact (proj1 (main_requires_name posix_join (spawn_exit 0) linesToRemove
                  ["node"; "migrate-safe.ts"] "/app" fs_example Hname)).
Defined.

(** C7: when the generator does not exit with status zero, [main]
    reports the command and ends the process with exit code 1: the
    migrations root is not listed, no script is read or written, and
    the apply command is not started. *)
Theorem main_stops_after_failed_generate (path_join : list string → string)
    (spawn : string → FS → ChildResult * FS) (blacklist argv : list string)
    (cwd : string) (fs : FS) (name : string)
    (Hname : argv !! 2 = Some name) (Hne : name ≠ "")
    (Hgen : (spawn (cmd_generate name) fs).1 ≠ Exited 0) :
  let r := main path_join spawn blacklist argv cwd fs in
  r = mkRun [ConsoleInfo msg_step1;
             ConsoleInfo (msg_run (cmd_generate name));
             ExecSync (cmd_generate name);
             ConsoleError (msg_failed (cmd_generate name))]
            (spawn (cmd_generate name) fs).2 (Halted (Exit 1)) ∧
  commands (events r) = [cmd_generate name] ∧
  fs_calls (events r) = [].
Proof.
  intros r. subst r.
  rewrite main_generate_failed.
  - unfold generated. rewrite Hname. cbn [Js.str]. by repeat split.
  - by apply falsy_name with name.
  - unfold generated. rewrite Hname. by apply child_not_ok_iff.
Qed.

Lemma main_stops_after_failed_generate_witness :
  app_argv !! 2 = Some "add_user" ∧ "add_user" ≠ "" ∧
  (spawn_exit 1 (cmd_generate "add_user") fs_example).1 ≠ Exited 0 ∧
  commands (events (main posix_join (spawn_exit 1) linesToRemove app_argv "/app" fs_example))
    = [cmd_generate "add_user"] ∧
  fs_calls (events (main posix_join (spawn_exit 1) linesToRemove app_argv "/app" fs_example))
    = [].
Proof.
  assert (app_argv !! 2 = Some "add_user") as Hname by reflexivity.
  assert ("add_user" ≠ "") as Hne by discriminate.
  assert ((spawn_exit 1 (cmd_generate "add_user") fs_example).1 ≠ Exited 0) as Hgen
    by discriminate.
  split; [exact Hname|]. split; [exact Hne|]. split; [exact Hgen|].
  exact (proj2 (main_stops_after_failed_generate posix_join (spawn_exit 1) linesToRemove
                  app_argv "/app" fs_example "add_user" Hname Hne Hgen)).
Defined.

(** C5: after a successful generation, a migrations root that does not
    exist makes [readdirSync] throw out of [main], and a root that is
    empty or has no entry at index 1 makes [main] report that the
    folder was not found and end the process with exit code 1.  In each
    case the run stops in Step 2: no script is read or written, the
    apply command is not started and the file system is as the
    generator left it. *)
Theorem main_stops_when_not_located (path_join : list string → string)
    (spawn : string → FS → ChildResult * FS) (blacklist argv : list string)
    (cwd : string) (fs fs1 : FS) (name : string)
    (Hname : argv !! 2 = Some name) (Hne : name ≠ "")
    (Hgen : spawn (cmd_generate name) fs = (Exited 0, fs1)) :
  let r := main path_join spawn blacklist argv cwd fs in
  let root := migrationsDir path_join cwd in
  let generate := [ConsoleInfo msg_step1; ConsoleInfo (msg_run (cmd_generate name));
                   ExecSync (cmd_generate name)] in
  (dirs fs1 !! root = None →
     r = mkRun (generate ++ [ConsoleInfo msg_step2; ReaddirSync root]) fs1
               (Halted (Throw (FsError "scandir" root)))) ∧
  (dirs fs1 !! root = Some [] →
     r = mkRun (generate ++ [ConsoleInfo msg_step2; ReaddirSync root;
                             ConsoleError msg_not_found]) fs1 (Halted (Exit 1))) ∧
  (∀ entries, dirs fs1 !! root = Some entries → length entries < 2 →
     r = mkRun (generate ++ [ConsoleInfo msg_step2; ReaddirSync root;
                             ConsoleError msg_not_found]) fs1 (Halted (Exit 1))) ∧
  (dirs fs1 !! root = None ∨
   (∃ entries, dirs fs1 !! root = Some entries ∧ length entries < 2) →
     (∃ h, outcome r = Halted h) ∧
     final r = fs1 ∧
     commands (events r) = [cmd_generate name] ∧
     fs_calls (events r) = [root]).
Proof.
  intros r root generate.
  assert (Js.falsy (argv !! 2) = false) as Hfalsy by (by apply falsy_name with name).
  assert (generated spawn argv fs = (Exited 0, fs1)) as Hgen'
    by (unfold generated; by rewrite Hname).
  assert (r = prepend generate (after_generate path_join spawn blacklist cwd fs1)) as Hr.
  { subst r. rewrite main_generate_ok; [|done|by rewrite Hgen'].
    rewrite Hgen', Hname. reflexivity. }
  assert (dirs fs1 !! root = None →
     r = mkRun (generate ++ [ConsoleInfo msg_step2; ReaddirSync root]) fs1
               (Halted (Throw (FsError "scandir" root)))) as Hmissing.
  { intros Hroot. rewrite Hr, after_generate_no_root by done. reflexivity. }
  assert (∀ entries, dirs fs1 !! root = Some entries → length entries < 2 →
     r = mkRun (generate ++ [ConsoleInfo msg_step2; ReaddirSync root;
                             ConsoleError msg_not_found]) fs1 (Halted (Exit 1))) as Hshort.
  { intros entries Hroot Hlen.
    rewrite Hr, (after_generate_not_found _ _ _ _ _ entries); [reflexivity|done|].
    unfold selected. rewrite lookup_ge_None_2; [done|].
    rewrite reverse_sort_length. lia. }
  split; [exact Hmissing|].
  split; [intros Hroot; apply (Hshort [] Hroot); simpl; lia|].
  split; [exact Hshort|].
  intros [Hroot | (entries & Hroot & Hlen)].
  - rewrite (Hmissing Hroot). repeat split; try done. by eexists.
  - rewrite (Hshort entries Hroot Hlen). repeat split; try done. by eexists.
Qed.

Lemma main_stops_when_not_located_witness :
  app_argv !! 2 = Some "add_user" ∧ "add_user" ≠ "" ∧
  spawn_exit 0 (cmd_generate "add_user") fs_empty_root = (Exited 0, fs_empty_root) ∧
  dirs fs_empty_root !! migrationsDir posix_join "/app" = Some [] ∧
  main posix_join (spawn_exit 0) linesToRemove app_argv "/app" fs_empty_root =
  mkRun ([ConsoleInfo msg_step1; ConsoleInfo (msg_run (cmd_generate "add_user"));
          ExecSync (cmd_generate "add_user")] ++
         [ConsoleInfo msg_step2; ReaddirSync (migrationsDir posix_join "/app");
          ConsoleError msg_not_found])
        fs_empty_root (Halted (Exit 1)).
Proof.
  assert (app_argv !! 2 = Some "add_user") as Hname by reflexivity.
  assert ("add_user" ≠ "") as Hne by discriminate.
  assert (spawn_exit 0 (cmd_generate "add_user") fs_empty_root
          = (Exited 0, fs_empty_root)) as Hgen by reflexivity.
  assert (dirs fs_empty_root !! migrationsDir posix_join "/app" = Some [])
    as Hroot by (vm_compute; reflexivity).
  split; [exact Hname|]. split; [exact Hne|]. split; [exact Hgen|].
  split; [exact Hroot|].
  exact (proj1 (proj2 (main_stops_when_not_located posix_join (spawn_exit 0)
                  linesToRemove app_argv "/app" fs_empty_root fs_empty_root
                  "add_user" Hname Hne Hgen)) Hroot).
Defined.

(** * Further properties of the script *)

(** ** The clean-up loop *)

Lemma has_code_app c a b : has_code c (a +:+ b) = has_code c a || has_code c b.
Proof.
  induction a as [|d a IH]; [done|].
  rewrite append_String. cbn [has_code]. by rewrite IH, orb_assoc.
Qed.

Lemma clean_line_occurs blacklist line :
  clean_line blacklist line = true ↔ ∀ entry, entry ∈ blacklist → ¬ occurs entry line.
Proof.
  unfold clean_line, occurs. rewrite forallb_forall. split.
  - intros Hall entry Hin Hocc. apply list_elem_of_In, Hall in Hin.
    apply includes_occurs in Hocc. by rewrite Hocc in Hin.
  - intros Hall entry Hin. apply list_elem_of_In, Hall in Hin.
    destruct (Js.includes line entry) eqn:Hinc; [|done].
    by apply includes_occurs in Hinc.
Qed.

Lemma sanitize_lines_clean blacklist content :
  Forall (λ entry, entry ≠ "") blacklist →
  Forall (λ line, clean_line blacklist line = true)
         (lines_of (sanitize blacklist content).1).
Proof.
  intros Hne. rewrite sanitize_content.
  destruct (retained blacklist (lines_of content)) as [|x kept] eqn:Hkept.
  - change (lines_of (Js.join NL [])) with [""].
    repeat constructor. by apply clean_line_empty.
  - rewrite lines_of_join; [|done|].
    + rewrite <- Hkept. apply filter_holds.
    + rewrite <- Hkept. apply filter_Forall, split_pieces.
Qed.

(** X1: when no entry of the blacklist is the empty string, no line of
    the cleaned script has an entry of the blacklist occurring in it,
    at any position. *)
Theorem sanitize_leaves_no_entry (blacklist : list string) (content : string)
    (Hne : Forall (λ entry, entry ≠ "") blacklist) :
  ∀ line entry,
    line ∈ lines_of (sanitize blacklist content).1 →
    entry ∈ blacklist →
    ¬ occurs entry line.
Proof.
  intros line entry Hline Hentry.
  pose proof (sanitize_lines_clean blacklist content Hne) as Hall.
  rewrite Forall_forall in Hall.
  by apply (proj1 (clean_line_occurs blacklist line) (Hall line Hline)).
Qed.

Lemma sanitize_leaves_no_entry_witness :
  Forall (λ entry, entry ≠ "") linesToRemove ∧
  ∀ line entry,
    line ∈ lines_of (sanitize linesToRemove example_script).1 →
    entry ∈ linesToRemove →
    ¬ occurs entry line.
Proof.
  assert (Forall (λ entry : string, entry ≠ "") linesToRemove) as Hne
    by (repeat constructor; discriminate).
  split; [exact Hne|].
  exact (sanitize_leaves_no_entry linesToRemove example_script Hne).
Defined.

Lemma newline_entry_never_occurs entry line :
  has_code Js.LF entry = true → has_code Js.LF line = false →
  Js.includes line entry = false.
Proof.
  intros Hentry Hline. destruct (Js.includes line entry) eqn:Hinc; [|done].
  apply includes_occurs in Hinc as (pre & post & ->).
  rewrite !has_code_app, Hentry in Hline. by destruct (has_code Js.LF pre).
Qed.

(** X2: an entry of the blacklist that has a line feed in it matches no
    line: against a blacklist of such entries the script is left as it
    is and the count is 0. *)
Theorem sanitize_ignores_multiline_entries (blacklist : list string) (content : string)
    (Hmulti : Forall (λ entry, has_code Js.LF entry = true) blacklist) :
  sanitize blacklist content = (content, 0).
Proof.
  apply sanitize_clean.
  pose proof (split_pieces Js.LF content) as Hpieces. fold (lines_of content) in Hpieces.
  eapply Forall_impl; [exact Hpieces|]. intros line Hline. simpl in Hline.
  unfold clean_line. apply forallb_forall. intros entry Hin.
  rewrite Forall_forall in Hmulti. apply list_elem_of_In, Hmulti in Hin.
  by rewrite newline_entry_never_occurs.
Qed.

Lemma sanitize_ignores_multiline_entries_witness :
  Forall (λ entry, has_code Js.LF entry = true)
         ["DROP INDEX a;" +:+ NL +:+ "DROP INDEX b;"] ∧
  sanitize ["DROP INDEX a;" +:+ NL +:+ "DROP INDEX b;"]
           ("DROP INDEX a;" +:+ NL +:+ "DROP INDEX b;")
  = ("DROP INDEX a;" +:+ NL +:+ "DROP INDEX b;", 0).
Proof.
  assert (Forall (λ entry, has_code Js.LF entry = true)
                 ["DROP INDEX a;" +:+ NL +:+ "DROP INDEX b;"]) as Hmulti
    by (repeat constructor).
  split; [exact Hmulti|].
  exact (sanitize_ignores_multiline_entries _ _ Hmulti).
Defined.

Lemma loop_shift blacklist : ∀ content n,
  loop blacklist (content, n) =
  ((loop blacklist (content, 0)).1, n + (loop blacklist (content, 0)).2).
Proof.
  induction blacklist as [|entry blacklist IH]; intros content n.
  - simpl. f_equal. lia.
  - rewrite !loop_cons, !removeLine_eq.
    rewrite IH. rewrite (IH _ (0 + _)). simpl. f_equal. lia.
Qed.

Lemma loop_app blacklist blacklist' st :
  loop (blacklist ++ blacklist') st = loop blacklist' (loop blacklist st).
Proof. apply fold_left_app. Qed.

(** X3: cleaning against two blacklists one after the other is
    cleaning against their concatenation: the second stage starts from
    the content the first has left, and the counts add up. *)
Theorem sanitize_in_stages (blacklist blacklist' : list string) (content : string) :
  sanitize (blacklist ++ blacklist') content =
  ((sanitize blacklist' (sanitize blacklist content).1).1,
   (sanitize blacklist content).2 +
   (sanitize blacklist' (sanitize blacklist content).1).2).
Proof.
  rewrite !sanitize_loop, loop_app.
  destruct (loop blacklist (content, 0)) as [c n] eqn:Hfirst.
  rewrite loop_shift. reflexivity.
Qed.

Lemma clean_line_same_entries blacklist blacklist' line :
  same_entries blacklist blacklist' →
  clean_line blacklist line = clean_line blacklist' line.
Proof.
  intros Hsame.
  destruct (clean_line blacklist line) eqn:H1, (clean_line blacklist' line) eqn:H2;
    try done.
  - rewrite clean_line_occurs in H1.
    assert (clean_line blacklist' line = true) as H; [|congruence].
    apply clean_line_occurs. intros entry Hin. apply H1, Hsame, Hin.
  - rewrite clean_line_occurs in H2.
    assert (clean_line blacklist line = true) as H; [|congruence].
    apply clean_line_occurs. intros entry Hin. apply H2, Hsame, Hin.
Qed.

(** X4: the order of the entries of the blacklist and their repetition
    do not matter to the cleaned content; when no entry is the empty
    string they do not matter to the count either. *)
Theorem sanitize_same_entries (blacklist blacklist' : list string) (content : string)
    (Hsame : same_entries blacklist blacklist') :
  (sanitize blacklist content).1 = (sanitize blacklist' content).1 ∧
  (Forall (λ entry, entry ≠ "") blacklist →
   sanitize blacklist content = sanitize blacklist' content).
Proof.
  assert (retained blacklist (lines_of content)
          = retained blacklist' (lines_of content)) as Hkept.
  { unfold retained. apply List.filter_ext. intros line.
    by apply clean_line_same_entries. }
  assert ((sanitize blacklist content).1 = (sanitize blacklist' content).1) as Hc
    by (by rewrite !sanitize_content, Hkept).
  split; [exact Hc|]. intros Hne.
  assert (Forall (λ entry, entry ≠ "") blacklist') as Hne'.
  { rewrite Forall_forall in *. intros entry Hin. apply Hne, Hsame, Hin. }
  pose proof (sanitize_count blacklist content Hne) as Hn.
  pose proof (sanitize_count blacklist' content Hne') as Hn'.
  rewrite Hkept in Hn.
  destruct (sanitize blacklist content), (sanitize blacklist' content).
  simpl in *. congruence.
Qed.

Lemma sanitize_same_entries_witness :
  same_entries ["a"; "b"; "a"] ["b"; "a"] ∧
  Forall (λ entry, entry ≠ "") ["a"; "b"; "a"] ∧
  sanitize ["a"; "b"; "a"] ("xa" +:+ NL +:+ "c" +:+ NL +:+ "b")
  = sanitize ["b"; "a"] ("xa" +:+ NL +:+ "c" +:+ NL +:+ "b").
Proof.
  assert (same_entries ["a"; "b"; "a"] ["b"; "a"]) as Hsame.
  { intros entry. rewrite !elem_of_cons, !elem_of_nil. tauto. }
  assert (Forall (λ entry : string, entry ≠ "") ["a"; "b"; "a"]) as Hne
    by (repeat constructor; discriminate).
  split; [exact Hsame|]. split; [exact Hne|].
  exact (proj2 (sanitize_same_entries ["a"; "b"; "a"] ["b"; "a"]
                  ("xa" +:+ NL +:+ "c" +:+ NL +:+ "b") Hsame) Hne).
Defined.

Lemma loop_count_grows blacklist : ∀ content n,
  n ≤ (loop blacklist (content, n)).2 ∧
  ((loop blacklist (content, n)).2 = n → (loop blacklist (content, n)).1 = content).
Proof.
  induction blacklist as [|entry blacklist IH]; intros content n; [done|].
  rewrite loop_cons, removeLine_eq.
  set (L := lines_of content). set (F := without entry L).
  destruct (IH (Js.join NL F) (n + (length L - length F))) as [Hle Hsame].
  split; [lia|]. intros Hn.
  assert (length F ≤ length L) as HFL by apply filter_length_le.
  assert (length F = length L) as Hlen by lia.
  assert (F = L) as HF by (by apply filter_same_length).
  rewrite Hsame by lia. rewrite HF. apply join_lines_of.
Qed.

(** X5: a count of 0 means that the loop has left the content as it
    was; when no entry is the empty string the converse holds, so that
    what Step 3 writes back is never the content it has read. *)
Theorem sanitize_zero_iff_unchanged (blacklist : list string) (content : string) :
  ((sanitize blacklist content).2 = 0 → (sanitize blacklist content).1 = content) ∧
  (Forall (λ entry, entry ≠ "") blacklist →
   ((sanitize blacklist content).1 = content → (sanitize blacklist content).2 = 0) ∧
   ∀ path fs data,
     files fs !! path = Some content →
     (path, data) ∈ writes (events (clean blacklist path fs)) →
     data ≠ content).
Proof.
  split.
  { rewrite sanitize_loop. apply loop_count_grows. }
  intros Hne.
  assert ((sanitize blacklist content).1 = content →
          (sanitize blacklist content).2 = 0) as Hzero.
  { intros Hsame. rewrite sanitize_count by done.
    rewrite sanitize_content in Hsame.
    pose proof (sanitize_lines_clean blacklist content Hne) as Hclean.
    rewrite sanitize_content, Hsame in Hclean.
    unfold retained. rewrite filter_all by done. lia. }
  split; [exact Hzero|].
  intros path fs data Hfile Hwrite Hdata.
  destruct (decide ((sanitize blacklist content).2 = 0)) as [Hn|Hn].
  - rewrite (clean_untouched _ _ _ content) in Hwrite by done.
    by apply elem_of_nil in Hwrite.
  - assert (0 < (sanitize blacklist content).2) as Hpos by lia.
    assert (writes (events (clean blacklist path fs))
            = [(path, (sanitize blacklist content).1)]) as Hw.
    { destruct (decide (path ∈ locked fs)).
      - by rewrite (clean_write_refused _ _ _ content).
      - by rewrite (clean_written _ _ _ content). }
    rewrite Hw in Hwrite. apply list_elem_of_singleton in Hwrite.
    apply Hn, Hzero. congruence.
Qed.

Lemma sanitize_zero_iff_unchanged_witness :
  Forall (λ entry, entry ≠ "") linesToRemove ∧
  files fs_example !! app_script = Some example_script ∧
  (app_script, (sanitize linesToRemove example_script).1)
    ∈ writes (events (clean linesToRemove app_script fs_example)) ∧
  (sanitize linesToRemove example_script).1 ≠ example_script.
Proof.
  assert (Forall (λ entry : string, entry ≠ "") linesToRemove) as Hne
    by (repeat constructor; discriminate).
  assert (files fs_example !! app_script = Some example_script) as Hfile
    by (vm_compute; reflexivity).
  assert ((app_script, (sanitize linesToRemove example_script).1)
          ∈ writes (events (clean linesToRemove app_script fs_example))) as Hwrite
    by (vm_compute; apply list_elem_of_here).
  split; [exact Hne|]. split; [exact Hfile|]. split; [exact Hwrite|].
  exact (proj2 (proj2 (sanitize_zero_iff_unchanged linesToRemove example_script) Hne)
           app_script fs_example _ Hfile Hwrite).
Defined.

(** ** The lines of a script *)

(** X6: splitting a content on line feeds and joining the pieces gives
    the content back, whatever it is; the pieces are never none and
    have no line feed in them.  Joining lines that have no line feed
    and splitting again gives the lines back, except for no line at
    all, which comes back as one empty line. *)
Theorem lines_round_trip (content : string) :
  Js.join NL (lines_of content) = content ∧
  lines_of content ≠ [] ∧
  Forall (λ line, has_code Js.LF line = false) (lines_of content) ∧
  (∀ lines, lines ≠ [] → Forall (λ line, has_code Js.LF line = false) lines →
            lines_of (Js.join NL lines) = lines) ∧
  lines_of (Js.join NL []) = [""].
Proof.
  split; [apply join_lines_of|].
  split; [apply split_not_nil|].
  split; [apply split_pieces|].
  split; [|reflexivity].
  intros lines Hnil Hpieces. by apply lines_of_join.
Qed.

Lemma lines_round_trip_witness :
  ["a"; ""; "b"] ≠ [] ∧
  Forall (λ line, has_code Js.LF line = false) ["a"; ""; "b"] ∧
  lines_of (Js.join NL ["a"; ""; "b"]) = ["a"; ""; "b"].
Proof.
  assert (["a"; ""; "b"] ≠ ([] : list string)) as Hnil by discriminate.
  assert (Forall (λ line, has_code Js.LF line = false) ["a"; ""; "b"]) as Hpieces
    by (repeat constructor).
  split; [exact Hnil|]. split; [exact Hpieces|].
  exact (proj1 (proj2 (proj2 (proj2 (lines_round_trip ""))))
           ["a"; ""; "b"] Hnil Hpieces).
Defined.

(** ** The locator *)

Lemma selected_shape entries latest :
  selected entries = Some latest →
  ∃ top rest, Js.reverse (Js.sort entries) = top :: latest :: rest.
Proof.
  unfold selected. destruct (Js.reverse (Js.sort entries)) as [|top [|second rest]];
    [done|done|].
  intros [= ->]. by exists top, rest.
Qed.

(** X7: when the entries of the root are distinct, as those of a
    directory are, the entry taken by Step 2 is the second greatest
    name: it is below one entry, the greatest, and every other entry
    is below it.  It is the newest migration only if the greatest name
    is that of the marker file. *)
Theorem selected_is_second_greatest (entries : list string) (latest : string)
    (Hdistinct : NoDup entries) (Hlatest : selected entries = Some latest) :
  ∃ top,
    top ∈ entries ∧ latest ∈ entries ∧ top ≠ latest ∧ Js.le latest top ∧
    ∀ entry, entry ∈ entries → entry = top ∨ Js.le entry latest.
Proof.
  destruct (selected_shape entries latest Hlatest) as (top & rest & Hshape).
  pose proof (reverse_sort_permutation entries) as Hperm.
  pose proof (reverse_sort_descending entries) as Hsorted.
  rewrite Hshape in Hperm, Hsorted.
  rewrite <- Hperm in Hdistinct.
  apply StronglySorted_cons in Hsorted as [Htop Hsorted].
  apply StronglySorted_cons in Hsorted as [Hrest _].
  apply NoDup_cons in Hdistinct as [Hnotin _].
  exists top. repeat split.
  - rewrite <- Hperm. apply list_elem_of_here.
  - rewrite <- Hperm. apply list_elem_of_further, list_elem_of_here.
  - intros ->. apply Hnotin, list_elem_of_here.
  - by inversion Htop.
  - intros entry Hin. rewrite <- Hperm in Hin.
    apply elem_of_cons in Hin as [->|Hin]; [by left|right].
    apply elem_of_cons in Hin as [->|Hin]; [by destruct (total Js.le latest latest)|].
    rewrite Forall_forall in Hrest. by apply Hrest.
Qed.

Lemma selected_is_second_greatest_witness :
  NoDup app_entries ∧ selected app_entries = Some "20240102_b" ∧
  ∃ top,
    top ∈ app_entries ∧ "20240102_b" ∈ app_entries ∧ top ≠ "20240102_b" ∧
    Js.le "20240102_b" top ∧
    ∀ entry, entry ∈ app_entries → entry = top ∨ Js.le entry "20240102_b".
Proof.
  assert (NoDup app_entries) as Hdistinct by compute_done.
  assert (selected app_entries = Some "20240102_b") as Hlatest by reflexivity.
  split; [exact Hdistinct|]. split; [exact Hlatest|].
  exact (selected_is_second_greatest app_entries "20240102_b" Hdistinct Hlatest).
Defined.

Lemma sort_permuted entries entries' :
  entries ≡ₚ entries' → Js.sort entries = Js.sort entries'.
Proof.
  intros Hperm. apply (StronglySorted_unique Js.le).
  - apply sort_sorted.
  - apply sort_sorted.
  - by rewrite !sort_permutation.
Qed.

(** X8: the order in which [readdirSync] lists the entries does not
    matter: on two file systems whose roots hold the same entries,
    listed in any order, Step 2 does the same and gives the same
    path. *)
Theorem locate_ignores_listing_order (path_join : list string → string) (cwd : string)
    (fs fs' : FS) (entries entries' : list string)
    (Hroot : dirs fs !! migrationsDir path_join cwd = Some entries)
    (Hroot' : dirs fs' !! migrationsDir path_join cwd = Some entries')
    (Hperm : entries ≡ₚ entries') :
  selected entries = selected entries' ∧
  events (locate path_join cwd fs) = events (locate path_join cwd fs') ∧
  outcome (locate path_join cwd fs) = outcome (locate path_join cwd fs').
Proof.
  assert (selected entries = selected entries') as Hsel
    by (unfold selected; by rewrite (sort_permuted entries entries')).
  split; [exact Hsel|].
  destruct (Js.falsy (selected entries)) eqn:Hfalsy.
  - rewrite (locate_not_found _ _ _ entries), (locate_not_found _ _ _ entries');
      [done|done|by rewrite <- Hsel|done|done].
  - rewrite (locate_found _ _ _ entries), (locate_found _ _ _ entries');
      [|done|by rewrite <- Hsel|done|done].
    unfold scriptPath. by rewrite Hsel.
Qed.

Lemma locate_ignores_listing_order_witness :
  dirs fs_example !! migrationsDir posix_join "/app" = Some app_entries ∧
  dirs (mkFS {[ app_root := ["migration_lock.toml"; "20240101_a"; "20240102_b"] ]} ∅ ∅)
    !! migrationsDir posix_join "/app"
    = Some ["migration_lock.toml"; "20240101_a"; "20240102_b"] ∧
  app_entries ≡ₚ ["migration_lock.toml"; "20240101_a"; "20240102_b"] ∧
  outcome (locate posix_join "/app" fs_example) =
  outcome (locate posix_join "/app"
             (mkFS {[ app_root := ["migration_lock.toml"; "20240101_a"; "20240102_b"] ]}
                   ∅ ∅)).
Proof.
  assert (dirs fs_example !! migrationsDir posix_join "/app" = Some app_entries)
    as Hroot by (vm_compute; reflexivity).
  assert (dirs (mkFS {[ app_root := ["migration_lock.toml"; "20240101_a"; "20240102_b"] ]}
                     ∅ ∅) !! migrationsDir posix_join "/app"
          = Some ["migration_lock.toml"; "20240101_a"; "20240102_b"])
    as Hroot' by (vm_compute; reflexivity).
  assert (app_entries ≡ₚ ["migration_lock.toml"; "20240101_a"; "20240102_b"]) as Hperm.
  { unfold app_entries.
    apply (Permutation_cons_app ["migration_lock.toml"] ["20240102_b"]).
    apply perm_swap. }
  split; [exact Hroot|]. split; [exact Hroot'|]. split; [exact Hperm|].
  exact (proj2 (proj2 (locate_ignores_listing_order posix_join "/app" fs_example _
                         _ _ Hroot Hroot' Hperm))).
Defined.

(** ** What Steps 2 and 3 leave behind *)

Lemma clean_cases blacklist path fs :
  (files fs !! path = None ∧
   clean blacklist path fs =
   mkRun [ConsoleInfo msg_step3; ReadFileSync path] fs
         (Halted (Throw (FsError "open" path)))) ∨
  (∃ content,
     files fs !! path = Some content ∧
     (((sanitize blacklist content).2 = 0 ∧
       clean blacklist path fs =
       mkRun [ConsoleInfo msg_step3; ReadFileSync path; ConsoleInfo msg_clean] fs
             (Returned 0))
      ∨
      ((0 < (sanitize blacklist content).2) ∧ (path ∈ locked fs) ∧
       clean blacklist path fs =
       mkRun [ConsoleInfo msg_step3; ReadFileSync path;
              WriteFileSync path (sanitize blacklist content).1] fs
             (Halted (Throw (FsError "open" path))))
      ∨
      ((0 < (sanitize blacklist content).2) ∧ (path ∉ locked fs) ∧
       clean blacklist path fs =
       mkRun [ConsoleInfo msg_step3; ReadFileSync path;
              WriteFileSync path (sanitize blacklist content).1;
              ConsoleInfo (msg_removed (sanitize blacklist content).2)]
             (mkFS (dirs fs) (<[path := (sanitize blacklist content).1]> (files fs))
                   (locked fs))
             (Returned (sanitize blacklist content).2)))).
Proof.
  destruct (files fs !! path) as [content|] eqn:Hfile.
  - right. exists content. split; [done|].
    destruct (decide ((sanitize blacklist content).2 = 0)) as [Hn|Hn].
    + left. split; [done|]. by apply clean_untouched with content.
    + assert (0 < (sanitize blacklist content).2) as Hpos by lia.
      right. destruct (decide (path ∈ locked fs)).
      * left. split; [done|]. split; [done|]. by apply clean_write_refused.
      * right. split; [done|]. split; [done|]. by apply clean_written.
  - left. split; [done|]. by apply clean_no_file.
Qed.

Lemma locate_cases path_join cwd fs :
  final (locate path_join cwd fs) = fs.
Proof.
  destruct (dirs fs !! migrationsDir path_join cwd) as [entries|] eqn:Hroot.
  - destruct (Js.falsy (selected entries)) eqn:Hsel.
    + by rewrite (locate_not_found _ _ _ entries).
    + by rewrite (locate_found _ _ _ entries).
  - by rewrite locate_no_root.
Qed.

(** X9: Step 2 leaves the file system as it is, and Step 3 changes at
    most the text of the script it was given: the entries of every
    directory, the paths that refuse a write and the text of every
    other file are as before, a script that could not be read is not
    created, and one that was read holds afterwards either the text
    read or the cleaned text. *)
Theorem steps_touch_only_script (path_join : list string → string)
    (blacklist : list string) (cwd path : string) (fs : FS) :
  final (locate path_join cwd fs) = fs ∧
  dirs (final (clean blacklist path fs)) = dirs fs ∧
  locked (final (clean blacklist path fs)) = locked fs ∧
  (∀ other, other ≠ path →
     files (final (clean blacklist path fs)) !! other = files fs !! other) ∧
  (files fs !! path = None → final (clean blacklist path fs) = fs) ∧
  (∀ content, files fs !! path = Some content →
     files (final (clean blacklist path fs)) !! path = Some content ∨
     files (final (clean blacklist path fs)) !! path
       = Some (sanitize blacklist content).1).
Proof.
  split; [apply locate_cases|].
  destruct (clean_cases blacklist path fs)
    as [[Hnone ->] | (content & Hfile & [[Hn ->] | [(Hn & Hl & ->) | (Hn & Hl & ->)]])];
    cbn [final dirs locked files]; split_and!; try done; intros;
    first [ congruence
          | by left
          | by rewrite lookup_insert_ne
          | right; rewrite lookup_insert_eq; congruence ].
Qed.

Lemma steps_touch_only_script_witness :
  "/app/README.md" ≠ app_script ∧
  files (final (clean linesToRemove app_script fs_example)) !! "/app/README.md"
  = files fs_example !! "/app/README.md".
Proof.
  assert ("/app/README.md" ≠ app_script) as Hother by discriminate.
  split; [exact Hother|].
  exact (proj1 (proj2 (proj2 (proj2
    (steps_touch_only_script posix_join linesToRemove "/app" app_script fs_example))))
    "/app/README.md" Hother).
Defined.

(** ** Every run of [main] *)

Section EveryRun.

Variable path_join : list string → string.
Variable spawn : string → FS → ChildResult * FS.
Variable blacklist : list string.

(** [main] runs in one of the shapes of [main_run]. *)
Lemma main_run_complete argv cwd fs :
  main_run path_join spawn blacklist argv cwd fs
           (main path_join spawn blacklist argv cwd fs).
Proof.
  destruct (Js.falsy (argv !! 2)) eqn:Hname.
  { rewrite main_usage by done. by constructor. }
  destruct (child_ok (generated spawn argv fs).1) eqn:Hgen.
  2: { rewrite main_generate_failed by done. by apply run_generate_failed. }
  assert (generate_ok spawn argv fs) as Hok by done.
  rewrite main_generate_ok by done.
  destruct (dirs (generated spawn argv fs).2 !! migrationsDir path_join cwd)
    as [entries|] eqn:Hroot.
  2: { rewrite after_generate_no_root by done. by apply run_no_root. }
  destruct (Js.falsy (selected entries)) eqn:Hsel.
  { rewrite (after_generate_not_found _ _ _ _ _ entries) by done.
    by apply run_not_found with entries. }
  assert (located path_join spawn argv cwd fs entries) as Hloc by done.
  rewrite (after_generate_found _ _ _ _ _ entries) by done.
  fold (cleaning path_join spawn blacklist argv cwd fs entries).
  destruct (outcome (clean blacklist (scriptPath path_join cwd entries)
                       (generated spawn argv fs).2)) as [n|h] eqn:Hclean.
  - rewrite (bind_returned _ _ _ n) by done.
    fold (cleaning path_join spawn blacklist argv cwd fs entries) in *.
    destruct (child_ok (spawn cmd_deploy
                (final (cleaning path_join spawn blacklist argv cwd fs entries))).1)
      eqn:Hdeploy.
    + rewrite finish_ok by done. by apply (run_completed _ _ _ _ _ _ entries n).
    + rewrite finish_failed by done. by apply (run_deploy_failed _ _ _ _ _ _ entries n).
  - rewrite (bind_halted _ _ _ h) by done.
    fold (cleaning path_join spawn blacklist argv cwd fs entries) in *.
    by apply (run_clean_halted _ _ _ _ _ _ entries h).
Qed.

Lemma cleaning_calls argv cwd fs entries :
  commands (events (cleaning path_join spawn blacklist argv cwd fs entries)) = [] ∧
  (fs_calls (events (cleaning path_join spawn blacklist argv cwd fs entries))
     = [scriptPath path_join cwd entries] ∨
   fs_calls (events (cleaning path_join spawn blacklist argv cwd fs entries))
     = [scriptPath path_join cwd entries; scriptPath path_join cwd entries]).
Proof.
  unfold cleaning.
  destruct (clean_cases blacklist (scriptPath path_join cwd entries)
              (generated spawn argv fs).2)
    as [[_ ->] | (content & _ & [[_ ->] | [(_ & _ & ->) | (_ & _ & ->)]])];
    split; try done; by (left + right).
Qed.

Lemma cleaning_fs_events argv cwd fs entries :
  fs_events (events (cleaning path_join spawn blacklist argv cwd fs entries))
    = [ReadFileSync (scriptPath path_join cwd entries)] ∨
  ∃ data,
    fs_events (events (cleaning path_join spawn blacklist argv cwd fs entries))
      = [ReadFileSync (scriptPath path_join cwd entries);
         WriteFileSync (scriptPath path_join cwd entries) data].
Proof.
  unfold cleaning.
  destruct (clean_cases blacklist (scriptPath path_join cwd entries)
              (generated spawn argv fs).2)
    as [[_ ->] | (content & _ & [[_ ->] | [(_ & _ & ->) | (_ & _ & ->)]])];
    cbn [events fs_events List.filter]; [by left|by left| |];
    right; by eexists.
Qed.

Lemma cleaning_returned argv cwd fs entries n :
  outcome (cleaning path_join spawn blacklist argv cwd fs entries) = Returned n →
  ∃ content,
    files (generated spawn argv fs).2 !! scriptPath path_join cwd entries
      = Some content ∧
    n = (sanitize blacklist content).2 ∧
    files (final (cleaning path_join spawn blacklist argv cwd fs entries))
      !! scriptPath path_join cwd entries = Some (sanitize blacklist content).1 ∧
    dirs (final (cleaning path_join spawn blacklist argv cwd fs entries))
      = dirs (generated spawn argv fs).2 ∧
    ∀ other, other ≠ scriptPath path_join cwd entries →
      files (final (cleaning path_join spawn blacklist argv cwd fs entries)) !! other
      = files (generated spawn argv fs).2 !! other.
Proof.
  unfold cleaning.
  destruct (clean_cases blacklist (scriptPath path_join cwd entries)
              (generated spawn argv fs).2)
    as [[_ ->] | (content & Hfile & [[Hn ->] | [(_ & _ & ->) | (_ & _ & ->)]])];
    cbn [outcome final files dirs]; intros [= <-].
  - exists content. split_and!; try done.
    pose proof (loop_count_grows blacklist content 0) as [_ Hsame].
    rewrite <- sanitize_loop in Hsame. by rewrite Hsame.
  - exists content. split_and!; try done; [apply lookup_insert_eq|].
    intros other Hother. by rewrite lookup_insert_ne.
Qed.

Lemma cleaning_not_done argv cwd fs entries :
  ConsoleInfo msg_done ∉ events (cleaning path_join spawn blacklist argv cwd fs entries).
Proof.
  unfold cleaning.
  destruct (clean_cases blacklist (scriptPath path_join cwd entries)
              (generated spawn argv fs).2)
    as [[_ ->] | (content & _ & [[_ ->] | [(_ & _ & ->) | (_ & _ & ->)]])];
    cbn [events]; intros Hin;
    repeat (apply elem_of_cons in Hin as [Hin|Hin];
            [try discriminate; injection Hin as Hin; vm_compute in Hin; discriminate|]);
    by apply elem_of_nil in Hin.
Qed.

End EveryRun.

Lemma commands_app evs evs' : commands (evs ++ evs') = commands evs ++ commands evs'.
Proof. apply omap_app. Qed.

Lemma fs_events_app evs evs' : fs_events (evs ++ evs') = fs_events evs ++ fs_events evs'.
Proof. apply List.filter_app. Qed.

(** X10: whatever its input, [main] starts at most two commands, the
    generator and then the apply command, each at most once, and calls
    into the file system at most three times, in this order: it lists
    the migrations root, then reads one script, then writes that same
    script. *)
Theorem main_calls_in_order (path_join : list string → string)
    (spawn : string → FS → ChildResult * FS) (blacklist argv : list string)
    (cwd : string) (fs : FS) :
  commands (events (main path_join spawn blacklist argv cwd fs))
    `prefix_of` [cmd_generate (Js.str (argv !! 2)); cmd_deploy] ∧
  ∃ script data,
    fs_events (events (main path_join spawn blacklist argv cwd fs))
      `prefix_of` [ReaddirSync (migrationsDir path_join cwd);
                   ReadFileSync script;
                   WriteFileSync script data].
Proof.
  destruct (main_run_complete path_join spawn blacklist argv cwd fs)
    as [Hname | Hname Hgen | Hok Hroot | entries Hok Hroot Hsel
        | entries h Hloc Hclean | entries n Hloc Hclean Hdeploy
        | entries n Hloc Hclean Hdeploy];
    cbn [events].
  1-4: split; [by eexists|]; exists "", ""; by eexists.
  all: rewrite !commands_app, !fs_events_app;
    rewrite (proj1 (cleaning_calls path_join spawn blacklist argv cwd fs entries));
    (split; [by eexists|]);
    exists (scriptPath path_join cwd entries);
    destruct (cleaning_fs_events path_join spawn blacklist argv cwd fs entries)
      as [-> | [data ->]]; [exists ""|exists data]; by eexists.
Qed.

Lemma cmd_deploy_not_generate name : cmd_deploy ≠ cmd_generate name.
Proof. intros Heq. vm_compute in Heq. discriminate. Qed.

(** X11: whenever [main] starts the apply command, it starts it on a
    file system in which the script found by Step 2 holds the cleaned
    text of what the generator wrote there, and which is otherwise as
    the generator left it; what the apply command leaves is what [main]
    leaves, whether the command succeeds or not. *)
Theorem deploy_runs_on_cleaned_script (path_join : list string → string)
    (spawn : string → FS → ChildResult * FS) (blacklist argv : list string)
    (cwd : string) (fs : FS)
    (Hdeploy : cmd_deploy ∈ commands (events (main path_join spawn blacklist argv cwd fs))) :
  ∃ entries content fs2,
    located path_join spawn argv cwd fs entries ∧
    files (generated spawn argv fs).2 !! scriptPath path_join cwd entries
      = Some content ∧
    files fs2 !! scriptPath path_join cwd entries = Some (sanitize blacklist content).1 ∧
    dirs fs2 = dirs (generated spawn argv fs).2 ∧
    (∀ other, other ≠ scriptPath path_join cwd entries →
       files fs2 !! other = files (generated spawn argv fs).2 !! other) ∧
    commands (events (main path_join spawn blacklist argv cwd fs))
      = [cmd_generate (Js.str (argv !! 2)); cmd_deploy] ∧
    final (main path_join spawn blacklist argv cwd fs) = (spawn cmd_deploy fs2).2.
Proof.
  revert Hdeploy.
  destruct (main_run_complete path_join spawn blacklist argv cwd fs)
    as [Hname | Hname Hgen | Hok Hroot | entries Hok Hroot Hsel
        | entries h Hloc Hclean | entries n Hloc Hclean Hrun
        | entries n Hloc Hclean Hrun];
    cbn [events final]; intros Hdeploy.
  - by apply elem_of_nil in Hdeploy.
  - apply list_elem_of_singleton in Hdeploy. by apply cmd_deploy_not_generate in Hdeploy.
  - apply list_elem_of_singleton in Hdeploy. by apply cmd_deploy_not_generate in Hdeploy.
  - apply list_elem_of_singleton in Hdeploy. by apply cmd_deploy_not_generate in Hdeploy.
  - rewrite !commands_app in Hdeploy.
    rewrite (proj1 (cleaning_calls path_join spawn blacklist argv cwd fs entries))
      in Hdeploy.
    apply list_elem_of_singleton in Hdeploy. by apply cmd_deploy_not_generate in Hdeploy.
  - destruct (cleaning_returned path_join spawn blacklist argv cwd fs entries n Hclean)
      as (content & Hfile & _ & Hcleaned & Hdirs & Hothers).
    exists entries, content,
      (final (cleaning path_join spawn blacklist argv cwd fs entries)).
    split_and!; try done.
    rewrite !commands_app.
    by rewrite (proj1 (cleaning_calls path_join spawn blacklist argv cwd fs entries)).
  - destruct (cleaning_returned path_join spawn blacklist argv cwd fs entries n Hclean)
      as (content & Hfile & _ & Hcleaned & Hdirs & Hothers).
    exists entries, content,
      (final (cleaning path_join spawn blacklist argv cwd fs entries)).
    split_and!; try done.
    rewrite !commands_app.
    by rewrite (proj1 (cleaning_calls path_join spawn blacklist argv cwd fs entries)).
Qed.

Lemma deploy_runs_on_cleaned_script_witness :
  cmd_deploy ∈ commands (events (main posix_join (spawn_exit 0) linesToRemove
                                      app_argv "/app" fs_example)) ∧
  ∃ entries content fs2,
    located posix_join (spawn_exit 0) app_argv "/app" fs_example entries ∧
    files (generated (spawn_exit 0) app_argv fs_example).2
      !! scriptPath posix_join "/app" entries = Some content ∧
    files fs2 !! scriptPath posix_join "/app" entries
      = Some (sanitize linesToRemove content).1 ∧
    dirs fs2 = dirs (generated (spawn_exit 0) app_argv fs_example).2 ∧
    (∀ other, other ≠ scriptPath posix_join "/app" entries →
       files fs2 !! other
       = files (generated (spawn_exit 0) app_argv fs_example).2 !! other) ∧
    commands (events (main posix_join (spawn_exit 0) linesToRemove
                           app_argv "/app" fs_example))
      = [cmd_generate (Js.str (app_argv !! 2)); cmd_deploy] ∧
    final (main posix_join (spawn_exit 0) linesToRemove app_argv "/app" fs_example)
      = (spawn_exit 0 cmd_deploy fs2).2.
Proof.
  assert (cmd_deploy ∈ commands (events (main posix_join (spawn_exit 0) linesToRemove
                                              app_argv "/app" fs_example))) as Hdeploy
    by (vm_compute; apply list_elem_of_further, list_elem_of_here).
  split; [exact Hdeploy|].
  exact (deploy_runs_on_cleaned_script posix_join (spawn_exit 0) linesToRemove
           app_argv "/app" fs_example Hdeploy).
Defined.

(** An event that is not the line announcing completion is not among
    the events listed. *)
Ltac not_done Hin :=
  lazymatch type of Hin with
  | _ ∈ _ ++ _ => apply elem_of_app in Hin as [Hin|Hin]; not_done Hin
  | _ ∈ _ :: _ =>
      apply elem_of_cons in Hin as [Hin|Hin];
      [try discriminate; injection Hin as Hin; vm_compute in Hin; discriminate
      |not_done Hin]
  | _ ∈ [] => by apply elem_of_nil in Hin
  | _ ∈ events (cleaning _ _ _ _ _ _ _) => by apply cleaning_not_done in Hin
  | _ ∈ generate_events _ => unfold generate_events in Hin; not_done Hin
  | _ ∈ locate_events _ _ _ => unfold locate_events in Hin; not_done Hin
  | _ ∈ deploy_events => unfold deploy_events in Hin; not_done Hin
  end.

(** X12: the line that announces a completed safe migration is printed
    exactly in the runs that return, and it is then the last thing
    done; such a run has started the generator and the apply command,
    in this order, and both have exited with status zero. *)
Theorem success_message_iff_completed (path_join : list string → string)
    (spawn : string → FS → ChildResult * FS) (blacklist argv : list string)
    (cwd : string) (fs : FS) :
  let completed :=
    ConsoleInfo (NL +:+ "ðŸŽ‰ Safe migration completed successfully!") in
  (completed ∈ events (main path_join spawn blacklist argv cwd fs) ↔
   outcome (main path_join spawn blacklist argv cwd fs) = Returned ()) ∧
  (outcome (main path_join spawn blacklist argv cwd fs) = Returned () →
   last (events (main path_join spawn blacklist argv cwd fs)) = Some completed ∧
   commands (events (main path_join spawn blacklist argv cwd fs))
     = [cmd_generate (Js.str (argv !! 2)); cmd_deploy] ∧
   (generated spawn argv fs).1 = Exited 0 ∧
   ∃ fs2, spawn cmd_deploy fs2 = (Exited 0, final (main path_join spawn blacklist argv cwd fs))).
Proof.
  intros completed. subst completed. change (NL +:+ _) with msg_done.
  destruct (main_run_complete path_join spawn blacklist argv cwd fs)
    as [Hname | Hname Hgen | Hok Hroot | entries Hok Hroot Hsel
        | entries h Hloc Hclean | entries n Hloc Hclean Hrun
        | entries n Hloc Hclean Hrun];
    cbn [events outcome final].
  1-6: split; [split; [intros Hin; exfalso; not_done Hin|done]|done].
  split.
  - split; [done|]. intros _. rewrite !elem_of_app. do 4 right.
    apply list_elem_of_here.
  - intros _. split_and!.
    + by rewrite !app_assoc, last_snoc.
    + rewrite !commands_app.
      by rewrite (proj1 (cleaning_calls path_join spawn blacklist argv cwd fs entries)).
    + destruct Hloc as [[_ Hgen] _]. by apply child_ok_iff.
    + exists (final (cleaning path_join spawn blacklist argv cwd fs entries)).
      apply child_ok_iff in Hrun. rewrite <- Hrun. by destruct (spawn cmd_deploy _).
Qed.

(** ** An empty entry *)

Lemma retained_empty_entry blacklist lines :
  "" ∈ blacklist → retained blacklist lines = [].
Proof.
  intros Hin. unfold retained.
  induction lines as [|line lines IH]; [done|]. cbn [List.filter].
  assert (clean_line blacklist line = false) as ->; [|done].
  destruct (clean_line blacklist line) eqn:Hclean; [|done].
  unfold clean_line in Hclean. rewrite forallb_forall in Hclean.
  apply list_elem_of_In, Hclean in Hin. by rewrite includes_empty_entry in Hin.
Qed.

Lemma empty_entry_counts content n :
  n < (removeLine "" (content, n)).2.
Proof.
  rewrite removeLine_eq. cbn [snd].
  assert (without "" (lines_of content) = []) as ->.
  { unfold without, Js.filter.
    induction (lines_of content) as [|line lines IH]; [done|].
    cbn [List.filter]. by rewrite includes_empty_entry. }
  pose proof (split_not_nil Js.LF content) as Hnil. fold (lines_of content) in Hnil.
  destruct (lines_of content); [done|]. simpl. lia.
Qed.

(** X13: the empty string as an entry of the blacklist matches every
    line: the cleaned content is then empty and the count is positive,
    so that Step 3, when the script can be written, leaves it empty. *)
Theorem empty_entry_empties_script (blacklist : list string) (content : string)
    (Hempty : "" ∈ blacklist) :
  (sanitize blacklist content).1 = "" ∧
  0 < (sanitize blacklist content).2 ∧
  ∀ path fs,
    files fs !! path = Some content → path ∉ locked fs →
    files (final (clean blacklist path fs)) !! path = Some "".
Proof.
  assert ((sanitize blacklist content).1 = "") as Hcontent
    by (by rewrite sanitize_content, retained_empty_entry).
  assert (0 < (sanitize blacklist content).2) as Hcount.
  { apply list_elem_of_split in Hempty as (before & after & ->).
    rewrite sanitize_loop, loop_app, loop_cons.
    destruct (loop before (content, 0)) as [c n].
    pose proof (empty_entry_counts c n) as Hpass.
    destruct (removeLine "" (c, n)) as [c' n'].
    pose proof (loop_count_grows after c' n') as [Hle _]. simpl in Hpass. lia. }
  split; [exact Hcontent|]. split; [exact Hcount|].
  intros path fs Hfile Hfree.
  rewrite (clean_written _ _ _ content) by done.
  cbn [final files]. by rewrite lookup_insert_eq, Hcontent.
Qed.

Lemma empty_entry_empties_script_witness :
  "" ∈ ["DROP INDEX"; ""] ∧
  files fs_example !! app_script = Some example_script ∧
  (app_script ∉ locked fs_example) ∧
  files (final (clean ["DROP INDEX"; ""] app_script fs_example)) !! app_script
  = Some "".
Proof.
  assert ("" ∈ ["DROP INDEX"; ""]) as Hempty
    by (apply list_elem_of_further, list_elem_of_here).
  assert (files fs_example !! app_script = Some example_script) as Hfile
    by (vm_compute; reflexivity).
  assert (app_script ∉ locked fs_example) as Hfree by apply not_elem_of_empty.
  split; [exact Hempty|]. split; [exact Hfile|]. split; [exact Hfree|].
  exact (proj2 (proj2 (empty_entry_empties_script ["DROP INDEX"; ""] example_script
                         Hempty)) app_script fs_example Hfile Hfree).
Defined.

(** * The process as a whole *)

(** ** Failures and how they are reported *)

Section Endings.

Variable path_join : list string → string.
Variable spawn : string → FS → ChildResult * FS.
Variable blacklist : list string.

Lemma main_located argv cwd fs entries :
  located path_join spawn argv cwd fs entries →
  main path_join spawn blacklist argv cwd fs =
  prepend (generate_events argv ++ locate_events path_join cwd entries)
          ((do linesRemovedCount <- clean blacklist (scriptPath path_join cwd entries);
            finish spawn) (generated spawn argv fs).2).
Proof.
  intros [[Hname Hgen] [Hroot Hsel]].
  rewrite main_generate_ok by done.
  rewrite (after_generate_found _ _ _ _ _ entries) by done.
  by rewrite prepend_prepend.
Qed.

Lemma main_script_unread argv cwd fs entries :
  located path_join spawn argv cwd fs entries →
  files (generated spawn argv fs).2 !! scriptPath path_join cwd entries = None →
  main path_join spawn blacklist argv cwd fs =
  mkRun (generate_events argv ++ locate_events path_join cwd entries ++
         [ConsoleInfo msg_step3; ReadFileSync (scriptPath path_join cwd entries)])
        (generated spawn argv fs).2
        (Halted (Throw (FsError "open" (scriptPath path_join cwd entries)))).
Proof.
  intros Hloc Hfile. rewrite (main_located _ _ _ entries) by done.
  rewrite (bind_halted _ _ _ (Throw (FsError "open" (scriptPath path_join cwd entries))));
    rewrite clean_no_file by done; [|reflexivity].
  unfold prepend. cbn [events final outcome]. by rewrite <- app_assoc.
Qed.

Lemma main_script_unwritten argv cwd fs entries content :
  located path_join spawn argv cwd fs entries →
  files (generated spawn argv fs).2 !! scriptPath path_join cwd entries = Some content →
  0 < (sanitize blacklist content).2 →
  scriptPath path_join cwd entries ∈ locked (generated spawn argv fs).2 →
  main path_join spawn blacklist argv cwd fs =
  mkRun (generate_events argv ++ locate_events path_join cwd entries ++
         [ConsoleInfo msg_step3; ReadFileSync (scriptPath path_join cwd entries);
          WriteFileSync (scriptPath path_join cwd entries)
                        (sanitize blacklist content).1])
        (generated spawn argv fs).2
        (Halted (Throw (FsError "open" (scriptPath path_join cwd entries)))).
Proof.
  intros Hloc Hfile Hn Hlocked. rewrite (main_located _ _ _ entries) by done.
  rewrite (bind_halted _ _ _ (Throw (FsError "open" (scriptPath path_join cwd entries))));
    rewrite (clean_write_refused _ _ _ content) by done; [|reflexivity].
  unfold prepend. cbn [events final outcome]. by rewrite <- app_assoc.
Qed.

(** Once Step 3 has returned, the run ends as the apply command does. *)
Lemma main_applies argv cwd fs entries n :
  located path_join spawn argv cwd fs entries →
  outcome (cleaning path_join spawn blacklist argv cwd fs entries) = Returned n →
  main path_join spawn blacklist argv cwd fs =
  prepend (generate_events argv ++ locate_events path_join cwd entries ++
           events (cleaning path_join spawn blacklist argv cwd fs entries))
          (finish spawn (final (cleaning path_join spawn blacklist argv cwd fs entries))).
Proof.
  intros Hloc Hclean. rewrite (main_located _ _ _ entries) by done.
  rewrite (bind_returned _ _ _ n) by done.
  rewrite prepend_prepend. by rewrite <- app_assoc.
Qed.

Lemma cleaning_reports_nothing argv cwd fs entries :
  reports (Script <$> events (cleaning path_join spawn blacklist argv cwd fs entries)) = [].
Proof.
  unfold cleaning.
  by destruct (clean_cases blacklist (scriptPath path_join cwd entries)
                 (generated spawn argv fs).2)
    as [[_ ->] | (content & _ & [[_ ->] | [(_ & _ & ->) | (_ & _ & ->)]])].
Qed.

Lemma cleaning_returns argv cwd fs entries content :
  files (generated spawn argv fs).2 !! scriptPath path_join cwd entries = Some content →
  (sanitize blacklist content).2 = 0 ∨
  scriptPath path_join cwd entries ∉ locked (generated spawn argv fs).2 →
  outcome (cleaning path_join spawn blacklist argv cwd fs entries)
  = Returned (sanitize blacklist content).2.
Proof.
  intros Hfile Hcan. unfold cleaning.
  destruct (decide ((sanitize blacklist content).2 = 0)) as [Hn|Hn].
  - rewrite (clean_untouched _ _ _ content) by done. by rewrite Hn.
  - destruct Hcan as [?|Hfree]; [done|].
    rewrite (clean_written _ _ _ content); [done|done|lia|done].
Qed.

End Endings.

Lemma reports_app out out' : reports (out ++ out') = reports out ++ reports out'.
Proof. apply List.filter_app. Qed.

(** C9: every failure ends the process with exit status 1, after one
    report on the error stream, which is the last thing printed.  The
    script itself reports a missing migration name (the usage), a
    generator or an apply command that does not exit with status zero
    (the command, in full) and a root with no entry at index 1 (the
    folder not found), and calls [process.exit(1)].  A migrations root
    that cannot be listed and a script that cannot be read or written
    make the call throw out of [main]: Node prints the error, which
    names the call and the path, under the line that announced the
    step, and ends the process with status 1.  In the one remaining
    case the process ends with status 0 and nothing reported. *)
Theorem every_failure_exits_reported (path_join : list string → string)
    (spawn : string → FS → ChildResult * FS) (blacklist argv : list string)
    (cwd : string) (fs : FS) :
  let p := migrate_safe path_join spawn blacklist argv cwd fs in
  let quote := λ s, Js.chr Js.DQUOTE +:+ s +:+ Js.chr Js.DQUOTE in
  let failed := λ command,
    Script (ConsoleError ("Command " +:+ quote command +:+ " failed.")) in
  let generate :=
    "npx prisma migrate dev --name " +:+ quote (Js.str (argv !! 2))
    +:+ " --create-only" in
  let deploy := "npx prisma migrate deploy" in
  let fs1 := (spawn generate fs).2 in
  let root := migrationsDir path_join cwd in
  let ends_with := λ report,
    status p = 1%N ∧ reports (output p) = [report] ∧ last (output p) = Some report in
  (Js.falsy (argv !! 2) = true →
   ends_with (Script (ConsoleError
     ("Error: Provide migration name. Usage: npm run migrate:safe -- "
      +:+ quote "my-migration-name")))) ∧
  (Js.falsy (argv !! 2) = false →
   ((spawn generate fs).1 ≠ Exited 0 → ends_with (failed generate)) ∧
   ((spawn generate fs).1 = Exited 0 →
    (dirs fs1 !! root = None →
     ends_with (Uncaught (FsError "scandir" root)) ∧
     last (infos (output p)) = Some (NL +:+ "[Step 2/4] Searching for migration file...")) ∧
    (∀ entries, dirs fs1 !! root = Some entries →
     (Js.falsy (selected entries) = true →
      ends_with (Script (ConsoleError "Migration folder not found."))) ∧
     (Js.falsy (selected entries) = false →
      let path := scriptPath path_join cwd entries in
      (files fs1 !! path = None →
       ends_with (Uncaught (FsError "open" path)) ∧
       last (infos (output p)) = Some (NL +:+ "[Step 3/4] Cleaning up migration file...")) ∧
      (∀ content, files fs1 !! path = Some content →
       (0 < (sanitize blacklist content).2 → path ∈ locked fs1 →
        ends_with (Uncaught (FsError "open" path)) ∧
        last (infos (output p))
          = Some (NL +:+ "[Step 3/4] Cleaning up migration file...")) ∧
       ((sanitize blacklist content).2 = 0 ∨ path ∉ locked fs1 →
        let fs2 := final (clean blacklist path fs1) in
        ((spawn deploy fs2).1 ≠ Exited 0 → ends_with (failed deploy)) ∧
        ((spawn deploy fs2).1 = Exited 0 →
         status p = 0%N ∧ reports (output p) = []))))))).
Proof.
  intros p quote failed generate deploy fs1 root ends_with.
  subst p quote failed generate deploy fs1 root ends_with. cbv beta.
  unfold migrate_safe.
  split.
  { intros Hname. by rewrite main_usage. }
  intros Hname. split.
  { intros Hgen%child_not_ok_iff. by rewrite main_generate_failed. }
  intros Hgen%child_ok_iff.
  assert (generate_ok spawn argv fs) as Hok by done.
  split.
  { intros Hroot.
    rewrite main_generate_ok, after_generate_no_root by done. done. }
  intros entries Hroot. split.
  { intros Hsel.
    rewrite main_generate_ok, (after_generate_not_found _ _ _ _ _ entries) by done.
    done. }
  intros Hsel.
  assert (located path_join spawn argv cwd fs entries) as Hloc by done.
  split.
  { intros Hfile. by rewrite (main_script_unread _ _ _ _ _ _ entries). }
  intros content Hfile. split.
  { intros Hn Hlocked. by rewrite (main_script_unwritten _ _ _ _ _ _ entries content). }
  intros Hcan.
  pose proof (cleaning_returns path_join spawn blacklist argv cwd fs entries content
                Hfile Hcan) as Hclean.
  rewrite (main_applies _ _ _ _ _ _ entries _ Hloc Hclean).
  fold (cleaning path_join spawn blacklist argv cwd fs entries).
  pose proof (cleaning_reports_nothing path_join spawn blacklist argv cwd fs entries)
    as Hquiet.
  split.
  - intros Hdeploy%child_not_ok_iff. rewrite finish_failed by done.
    unfold node_end, prepend. cbn [outcome events final status output].
    rewrite !fmap_app, !reports_app, Hquiet.
    split; [done|]. split; [done|]. by rewrite last_app.
  - intros Hdeploy%child_ok_iff. rewrite finish_ok by done.
    unfold node_end, prepend. cbn [outcome events final status output].
    rewrite !fmap_app, !reports_app, Hquiet. done.
Qed.

Lemma every_failure_exits_reported_witness :
  Js.falsy (app_argv !! 2) = false ∧
  (spawn_exit 0 (cmd_generate "add_user") fs_no_script).1 = Exited 0 ∧
  dirs fs_no_script !! migrationsDir posix_join "/app" = Some app_entries ∧
  Js.falsy (selected app_entries) = false ∧
  files fs_no_script !! app_script = None ∧
  status (migrate_safe posix_join (spawn_exit 0) linesToRemove app_argv "/app"
                       fs_no_script) = 1%N ∧
  last (output (migrate_safe posix_join (spawn_exit 0) linesToRemove app_argv "/app"
                             fs_no_script))
    = Some (Uncaught (FsError "open" app_script)).
Proof.
  assert (Js.falsy (app_argv !! 2) = false) as Hname by reflexivity.
  assert ((spawn_exit 0 (cmd_generate "add_user") fs_no_script).1 = Exited 0) as Hgen
    by reflexivity.
  assert (dirs fs_no_script !! migrationsDir posix_join "/app" = Some app_entries)
    as Hroot by (vm_compute; reflexivity).
  assert (Js.falsy (selected app_entries) = false) as Hsel by reflexivity.
  assert (files fs_no_script !! app_script = None) as Hfile by (vm_compute; reflexivity).
  split; [exact Hname|]. split; [exact Hgen|]. split; [exact Hroot|].
  split; [exact Hsel|]. split; [exact Hfile|].
  pose proof (every_failure_exits_reported posix_join (spawn_exit 0) linesToRemove
                app_argv "/app" fs_no_script) as Hall.
  cbv zeta in Hall. destruct Hall as [_ Hall].
  destruct (Hall Hname) as [_ Hgenerated].
  destruct (Hgenerated Hgen) as [_ Hlisted].
  destruct (Hlisted app_entries Hroot) as [_ Hselected].
  destruct (Hselected Hsel) as [Hunread _].
  destruct (Hunread Hfile) as [(Hstatus & _ & Hlast) _].
  split; [exact Hstatus | exact Hlast].
Defined.
